(** * newgit: text_to_audio_converter.py

    A shallow embedding of the two functions of
    [src/text_to_audio_converter.py], [text_to_wav] and [wav_to_text],
    with the library calls they make ([struct], [base64], [wave], [open],
    [print]) modelled at the interface the program uses.

    - Python [bytes] are [list byte]; Python [int]s are [Z]; indices and
      lengths are [nat].
    - A call that can raise returns [res]; code that touches the disk or
      the console runs in the state-and-error monad [M] over a [world]
      (the files by path, and the lines printed so far).  An unassigned
      local variable is [None], and reading it raises
      [UnboundLocalError].
    - The WAV container is the business of Python's [wave] module: a file
      on disk is either a plain file or a PCM container, seen as the
      parameters and sample data [wave] gives back for it.  The RIFF chunk
      layout and its 32-bit size fields are not modelled. *)

From Stdlib Require Import ZArith List Lia Bool.
From Stdlib Require Import Strings.Byte Strings.String Strings.Ascii.
From stdpp Require Import base numbers list gmap strings pretty.

Open Scope Z_scope.

(** ** Exceptions and results *)

Inductive exn : Type :=
| FileNotFoundError (path : string)
| WaveError (msg : string)
| StructError (msg : string)
| ValueError (msg : string)
| BinasciiError (msg : string)
| UnboundLocalError (name : string)
| NotModelled (what : string).

(** [str(e)], as the f-string of the [except] clause formats it. *)
Definition exn_str (e : exn) : string :=
  match e with
  | FileNotFoundError path =>
      "[Errno 2] No such file or directory: '" +:+ path +:+ "'"
  | WaveError msg | StructError msg | ValueError msg | BinasciiError msg => msg
  | UnboundLocalError name =>
      "cannot access local variable '" +:+ name +:+
      "' where it is not associated with a value"
  | NotModelled what => what
  end.

Inductive res (A : Type) : Type :=
| Ok (a : A)
| Raise (e : exn).
Arguments Ok {A} a.
Arguments Raise {A} e.

Definition res_bind {A B} (r : res A) (k : A -> res B) : res B :=
  match r with
  | Ok a => k a
  | Raise e => Raise e
  end.

Notation "'let?' x := r 'in' k" := (res_bind r (fun x => k))
  (at level 10, x name, r at level 100, k at level 200).

(** A [for] loop that threads a local variable and stops at the first
    exception. *)
Fixpoint for_res {A X} (xs : list X) (acc : A) (body : A -> X -> res A) : res A :=
  match xs with
  | [] => Ok acc
  | x :: xs' => let? acc' := body acc x in for_res xs' acc' body
  end.

(** ** Bytes, ranges and slices *)

Definition byte_to_Z (b : byte) : Z := Z.of_N (Byte.to_N b).

Definition byte_of_Z (z : Z) : byte :=
  match Byte.of_N (Z.to_N z) with
  | Some b => b
  | None => x00
  end.

(** [bytes(values)]: every value must be in [range(0, 256)]. *)
Definition bytes_of_values (values : list Z) : res (list byte) :=
  if forallb (fun v => (0 <=? v) && (v <? 256)) values
  then Ok (map byte_of_Z values)
  else Raise (ValueError "bytes must be in range(0, 256)").

(** [range(start, stop, step)] for a positive step. *)
Definition py_range (start stop step : nat) : list nat :=
  map (fun j => (start + j * step)%nat)
      (seq 0 ((stop - start + step - 1) / step)%nat).

(** [s[i:j]] and [s[i:]] for indices that are not negative. *)
Definition slice {A} (s : list A) (i j : nat) : list A :=
  firstn (j - i) (skipn i s).

Definition slice_from {A} (s : list A) (i : nat) : list A := skipn i s.

Fixpoint is_prefix (sub s : list byte) : bool :=
  match sub, s with
  | [], _ => true
  | _ :: _, [] => false
  | x :: sub', y :: s' => Byte.eqb x y && is_prefix sub' s'
  end.

(** [sub in s] on [bytes]. *)
Fixpoint bytes_contains (s sub : list byte) : bool :=
  is_prefix sub s ||
  match s with
  | [] => false
  | _ :: s' => bytes_contains s' sub
  end.

(** [s.find(sub)]: the lowest index at which [sub] starts, or [-1]. *)
Fixpoint bytes_find_from (s sub : list byte) (i : nat) : Z :=
  if is_prefix sub s then Z.of_nat i
  else match s with
       | [] => -1
       | _ :: s' => bytes_find_from s' sub (S i)
       end.

Definition bytes_find (s sub : list byte) : Z := bytes_find_from s sub 0.

(** ** [struct.pack] and [struct.unpack] for the formats the program uses

    ['B'] is one unsigned byte; ['<h'] and ['<i'] are signed 16- and
    32-bit integers in two's complement, least significant byte first.
    Packing a value outside the format's range raises [struct.error], and
    so does unpacking a buffer of the wrong length. *)

Definition struct_pack_B (v : Z) : res (list byte) :=
  if (0 <=? v) && (v <=? 255) then Ok [byte_of_Z v]
  else Raise (StructError "ubyte format requires 0 <= number <= 255").

Definition struct_pack_h (v : Z) : res (list byte) :=
  if (-32768 <=? v) && (v <=? 32767) then
    let u := v mod 65536 in
    Ok [byte_of_Z (u mod 256); byte_of_Z (u / 256)]
  else Raise (StructError "short format requires -32768 <= number <= 32767").

Definition struct_pack_i (v : Z) : res (list byte) :=
  if (-2147483648 <=? v) && (v <=? 2147483647) then
    let u := v mod 4294967296 in
    Ok [byte_of_Z (u mod 256);
        byte_of_Z (u / 256 mod 256);
        byte_of_Z (u / 65536 mod 256);
        byte_of_Z (u / 16777216)]
  else
    Raise (StructError
             "'i' format requires -2147483648 <= number <= 2147483647").

(** Two's complement reading of an unsigned value below [modulus]. *)
Definition to_signed (modulus : Z) (u : Z) : Z :=
  if u <? modulus / 2 then u else u - modulus.

Definition struct_unpack_B (buf : list byte) : res Z :=
  match buf with
  | [b0] => Ok (byte_to_Z b0)
  | _ => Raise (StructError "unpack requires a buffer of 1 bytes")
  end.

Definition struct_unpack_h (buf : list byte) : res Z :=
  match buf with
  | [b0; b1] => Ok (to_signed 65536 (byte_to_Z b0 + 256 * byte_to_Z b1))
  | _ => Raise (StructError "unpack requires a buffer of 2 bytes")
  end.

Definition struct_unpack_i (buf : list byte) : res Z :=
  match buf with
  | [b0; b1; b2; b3] =>
      Ok (to_signed 4294967296
            (byte_to_Z b0 + 256 * byte_to_Z b1 + 65536 * byte_to_Z b2
             + 16777216 * byte_to_Z b3))
  | _ => Raise (StructError "unpack requires a buffer of 4 bytes")
  end.

(** ** [base64.b64encode] and [base64.b64decode]

    [b64encode] is [binascii.b2a_base64] without the newline;
    [b64decode] with its default [validate=False] is
    [binascii.a2b_base64] in its lenient mode, which skips every byte
    outside the alphabet. *)

Definition table_b2a_base64 : list byte :=
  list_byte_of_string
    "ABCDEFGHIJKLMNOPQRSTUVWXYZabcdefghijklmnopqrstuvwxyz0123456789+/".

Definition BASE64_PAD : byte := "="%byte.

Definition b2a (six : Z) : byte := nth (Z.to_nat six) table_b2a_base64 x00.

(** The decoding table: the value of an alphabet byte, 255 for any other. *)
Definition table_a2b_base64 (c : byte) : Z :=
  let n := byte_to_Z c in
  if (65 <=? n) && (n <=? 90) then n - 65
  else if (97 <=? n) && (n <=? 122) then n - 71
  else if (48 <=? n) && (n <=? 57) then n + 4
  else if n =? 43 then 62
  else if n =? 47 then 63
  else 255.

Fixpoint b64encode (s : list byte) : list byte :=
  match s with
  | [] => []
  | [a] =>
      let a := byte_to_Z a in
      [b2a (Z.shiftr a 2); b2a (Z.shiftl (Z.land a 3) 4);
       BASE64_PAD; BASE64_PAD]
  | [a; b] =>
      let a := byte_to_Z a in
      let b := byte_to_Z b in
      [b2a (Z.shiftr a 2);
       b2a (Z.lor (Z.shiftl (Z.land a 3) 4) (Z.shiftr b 4));
       b2a (Z.shiftl (Z.land b 15) 2);
       BASE64_PAD]
  | a :: b :: c :: rest =>
      let a := byte_to_Z a in
      let b := byte_to_Z b in
      let c := byte_to_Z c in
      b2a (Z.shiftr a 2)
      :: b2a (Z.lor (Z.shiftl (Z.land a 3) 4) (Z.shiftr b 4))
      :: b2a (Z.lor (Z.shiftl (Z.land b 15) 2) (Z.shiftr c 6))
      :: b2a (Z.land c 63)
      :: b64encode rest
  end.

Definition a2b_error (quad_pos : nat) (bin : list byte) : exn :=
  if (quad_pos =? 1)%nat then
    BinasciiError
      ("Invalid base64-encoded string: number of data characters (" +:+
       pretty (length bin / 3 * 4 + 1)%nat +:+
       ") cannot be 1 more than a multiple of 4")
  else BinasciiError "Incorrect padding".

(** The loop of [a2b_base64]: [quad_pos] counts the data characters of the
    current quad, [leftchar] holds the bits not yet written, [pads] the
    padding characters seen since the last data character, [bin] the
    output so far. *)
Fixpoint a2b_loop (ascii : list byte) (quad_pos : nat) (leftchar : Z)
    (pads : nat) (bin : list byte) : res (list byte) :=
  match ascii with
  | [] => if (quad_pos =? 0)%nat then Ok bin else Raise (a2b_error quad_pos bin)
  | this_ch :: rest =>
      if Byte.eqb this_ch BASE64_PAD then
        if (2 <=? quad_pos)%nat then
          if (4 <=? quad_pos + (pads + 1))%nat then Ok bin
          else a2b_loop rest quad_pos leftchar (pads + 1)%nat bin
        else a2b_loop rest quad_pos leftchar pads bin
      else
        let six := table_a2b_base64 this_ch in
        if 64 <=? six then a2b_loop rest quad_pos leftchar pads bin
        else
          match quad_pos with
          | 0%nat => a2b_loop rest 1 six 0 bin
          | 1%nat =>
              a2b_loop rest 2 (Z.land six 15) 0
                (bin ++ [byte_of_Z (Z.land (Z.lor (Z.shiftl leftchar 2)
                                                  (Z.shiftr six 4)) 255)])
          | 2%nat =>
              a2b_loop rest 3 (Z.land six 3) 0
                (bin ++ [byte_of_Z (Z.land (Z.lor (Z.shiftl leftchar 4)
                                                  (Z.shiftr six 2)) 255)])
          | _ =>
              a2b_loop rest 0 0 0
                (bin ++ [byte_of_Z (Z.land (Z.lor (Z.shiftl leftchar 6) six)
                                           255)])
          end
  end.

Definition b64decode (s : list byte) : res (list byte) := a2b_loop s 0 0 0 [].

Definition bs (s : string) : list byte := list_byte_of_string s.

(** ** The disk, the console and the monad *)

(** What [wave.open(path, 'r')] gives back for a PCM container: the
    parameters of its format chunk, the frame count computed from the size
    of its data chunk, and the bytes of the data chunk. *)
Record pcm : Type := Pcm {
  nchannels : Z;
  sampwidth : Z;
  framerate : Z;
  nframes : Z;
  frames : list byte
}.

Inductive file : Type :=
| Plain (content : list byte)
| Wave (w : pcm).

Record world : Type := World {
  fs : gmap string file;
  stdout : list string
}.

Definition M (S A : Type) : Type := S -> res A * S.

Definition ret {S A} (a : A) : M S A := fun s => (Ok a, s).

Definition raise {S A} (e : exn) : M S A := fun s => (Raise e, s).

Definition bind {S A B} (m : M S A) (k : A -> M S B) : M S B :=
  fun s =>
    match m s with
    | (Ok a, s') => k a s'
    | (Raise e, s') => (Raise e, s')
    end.

Definition lift_res {S A} (r : res A) : M S A := fun s => (r, s).

(** [try: m except Exception as e: h e] *)
Definition try_except {S A} (m : M S A) (h : exn -> M S A) : M S A :=
  fun s =>
    match m s with
    | (Ok a, s') => (Ok a, s')
    | (Raise e, s') => h e s'
    end.

Declare Scope py_scope.
Delimit Scope py_scope with py.
Notation "x <- m ;; k" := (bind m (fun x => k))
  (at level 100, m at next level, k at level 200, right associativity)
  : py_scope.
Notation "m ;; k" := (bind m (fun _ => k))
  (at level 100, k at level 200, right associativity) : py_scope.
Open Scope py_scope.

Fixpoint for_each {S X} (xs : list X) (body : X -> M S unit) : M S unit :=
  match xs with
  | [] => ret tt
  | x :: xs' => body x ;; for_each xs' body
  end.

Definition print (line : string) : M world unit :=
  fun w => (Ok tt, World (fs w) (stdout w ++ [line])).

(** [with open(path, 'rb') as f: f.read()].  The bytes of a container are
    its RIFF image, which this model does not hold: a payload is read from
    a plain file. *)
Definition open_rb_read (path : string) : M world (list byte) :=
  fun w =>
    match fs w !! path with
    | Some (Plain content) => (Ok content, w)
    | Some (Wave _) => (Raise (NotModelled "the bytes of a container"), w)
    | None => (Raise (FileNotFoundError path), w)
    end.

(** [with open(path, 'wb') as f: f.write(data)]: the file is truncated
    and the data written, taken as one step; a write that fails part-way
    (a full disk) is not modelled. *)
Definition open_wb_write (path : string) (data : list byte) : M world unit :=
  fun w => (Ok tt, World (<[path := Plain data]> (fs w)) (stdout w)).

(** [os.path.getsize]: a canonical container is a 44-byte header and the
    data chunk. *)
Definition os_path_getsize (path : string) : M world nat :=
  fun w =>
    match fs w !! path with
    | Some (Plain content) => (Ok (length content), w)
    | Some (Wave c) => (Ok (44 + length (frames c))%nat, w)
    | None => (Raise (FileNotFoundError path), w)
    end.

(** ** The [wave] module *)

(** The fields of a [Wave_write] object that the program reaches. *)
Record Wave_write : Type := WaveWrite {
  w_file : string;
  w_nchannels : Z;
  w_sampwidth : Z;
  w_framerate : Z;
  w_headerwritten : bool;
  w_data : list byte
}.

(** The container on disk once the header is written and patched. *)
Definition container (wav : Wave_write) : pcm :=
  {| nchannels := w_nchannels wav;
     sampwidth := w_sampwidth wav;
     framerate := w_framerate wav;
     nframes := Z.of_nat (length (w_data wav))
                / (w_nchannels wav * w_sampwidth wav);
     frames := w_data wav |}.

Definition flush (wav : Wave_write) (w : world) : world :=
  World (<[w_file wav := Wave (container wav)]> (fs w)) (stdout w).

Definition setnchannels (n : Z) : M (Wave_write * world) unit :=
  fun '(wav, w) =>
    if negb (length (w_data wav) =? 0)%nat then
      (Raise (WaveError "cannot change parameters after starting to write"),
       (wav, w))
    else if n <? 1 then (Raise (WaveError "bad # of channels"), (wav, w))
    else (Ok tt,
          (WaveWrite (w_file wav) n (w_sampwidth wav) (w_framerate wav)
             (w_headerwritten wav) (w_data wav), w)).

Definition setsampwidth (n : Z) : M (Wave_write * world) unit :=
  fun '(wav, w) =>
    if negb (length (w_data wav) =? 0)%nat then
      (Raise (WaveError "cannot change parameters after starting to write"),
       (wav, w))
    else if (n <? 1) || (4 <? n) then
      (Raise (WaveError "bad sample width"), (wav, w))
    else (Ok tt,
          (WaveWrite (w_file wav) (w_nchannels wav) n (w_framerate wav)
             (w_headerwritten wav) (w_data wav), w)).

Definition setframerate (n : Z) : M (Wave_write * world) unit :=
  fun '(wav, w) =>
    if negb (length (w_data wav) =? 0)%nat then
      (Raise (WaveError "cannot change parameters after starting to write"),
       (wav, w))
    else if n <=? 0 then (Raise (WaveError "bad frame rate"), (wav, w))
    else (Ok tt,
          (WaveWrite (w_file wav) (w_nchannels wav) (w_sampwidth wav) n
             (w_headerwritten wav) (w_data wav), w)).

Definition ensure_header_written : M (Wave_write * world) unit :=
  fun '(wav, w) =>
    if w_headerwritten wav then (Ok tt, (wav, w))
    else if w_nchannels wav =? 0 then
      (Raise (WaveError "# channels not specified"), (wav, w))
    else if w_sampwidth wav =? 0 then
      (Raise (WaveError "sample width not specified"), (wav, w))
    else if w_framerate wav =? 0 then
      (Raise (WaveError "sampling rate not specified"), (wav, w))
    else
      let wav' := WaveWrite (w_file wav) (w_nchannels wav) (w_sampwidth wav)
                    (w_framerate wav) true (w_data wav) in
      (Ok tt, (wav', flush wav' w)).

(** [writeframes]: the header is written before the first frames, the data
    is appended, and the sizes in the header are patched. *)
Definition writeframes (data : list byte) : M (Wave_write * world) unit :=
  ensure_header_written ;;
  fun '(wav, w) =>
    let wav' := WaveWrite (w_file wav) (w_nchannels wav) (w_sampwidth wav)
                  (w_framerate wav) (w_headerwritten wav)
                  (w_data wav ++ data) in
    (Ok tt, (wav', flush wav' w)).

Definition close : M (Wave_write * world) unit := ensure_header_written.

(** [with wave.open(path, 'w') as wav: body].  Opening creates or truncates
    the file; leaving the block, by its end or by an exception, closes the
    writer, and an exception of [close] replaces the one of the body. *)
Definition with_wave_open_w {A} (path : string)
    (body : M (Wave_write * world) A) : M world A :=
  fun w =>
    let w0 := World (<[path := Plain []]> (fs w)) (stdout w) in
    let wav0 := WaveWrite path 0 0 0 false [] in
    let '(r, s1) := body (wav0, w0) in
    match close s1 with
    | (Ok _, (_, w2)) => (r, w2)
    | (Raise e, (_, w2)) => (Raise e, w2)
    end.

(** [wave.open(path, 'r')] on a file that is no container fails in the
    chunk reader. *)
Definition wave_open_r (path : string) : M world pcm :=
  fun w =>
    match fs w !! path with
    | Some (Wave c) => (Ok c, w)
    | Some (Plain _) =>
        (Raise (WaveError "file does not start with RIFF id"), w)
    | None => (Raise (FileNotFoundError path), w)
    end.

Definition getnchannels (wav : pcm) : Z := nchannels wav.
Definition getsampwidth (wav : pcm) : Z := sampwidth wav.
Definition getnframes (wav : pcm) : Z := nframes wav.

(** [readframes(n)] from the start of the data chunk: at most [n] frames
    of [nchannels * sampwidth] bytes each. *)
Definition readframes (wav : pcm) (n : Z) : list byte :=
  if n =? 0 then []
  else
    let size := n * (nchannels wav * sampwidth wav) in
    if size <? 0 then frames wav else firstn (Z.to_nat size) (frames wav).

(** ** The program *)

Definition MAGIC : list byte := bs "ENCODED_TEXT:".

(** Lines 41-53, the body of the loop over the frame: one byte is scaled
    to the chosen depth, packed and written as a sample. *)
Definition write_sample (bits_per_sample : Z) (byte : Z)
  : M (Wave_write * world) unit :=
  if bits_per_sample =? 8 then
    packed <- lift_res (struct_pack_B byte) ;;
    writeframes packed
  else if bits_per_sample =? 16 then
    let scaled_value := (byte - 128) * 256 in
    packed <- lift_res (struct_pack_h scaled_value) ;;
    writeframes packed
  else if bits_per_sample =? 32 then
    let scaled_value := (byte - 128) * 16777216 in
    packed <- lift_res (struct_pack_i scaled_value) ;;
    writeframes packed
  else ret tt.

Definition text_to_wav (text_file wav_file : string) (bits_per_sample : Z)
  : M world unit :=
  text_data <- open_rb_read text_file ;;
  let encoded_data := b64encode text_data in
  let header := MAGIC in
  let data_with_header := header ++ encoded_data in
  let num_samples := length data_with_header in
  let num_channels := 1 in
  let sample_rate := 44100 in
  with_wave_open_w wav_file
    (setnchannels num_channels ;;
     setsampwidth (bits_per_sample / 8) ;;
     setframerate sample_rate ;;
     for_each data_with_header (fun byte =>
       write_sample bits_per_sample (byte_to_Z byte))) ;;
  print ("Successfully converted " +:+ text_file +:+ " to " +:+ wav_file) ;;
  print ("Original file size: " +:+ pretty (length text_data) +:+ " bytes") ;;
  size <- os_path_getsize wav_file ;;
  print ("Encoded WAV file size: " +:+ pretty size +:+ " bytes").

(** The decoder's value for one sample (lines 81, 89 and 97). *)
Definition recover8 (value : Z) : Z := value.
Definition recover16 (value : Z) : Z := Z.min 255 (Z.max 0 (value / 256 + 128)).
Definition recover32 (value : Z) : Z :=
  Z.min 255 (Z.max 0 (value / 16777216 + 128)).

(** Lines 76-98, the body of the [with] block: [None] when no branch
    assigns [decoded_bytes]. *)
Definition unpack_frames (sample_width : Z) (raw_data : list byte)
  : res (option (list byte)) :=
  if sample_width =? 1 then
    let? values :=
      for_res (py_range 0 (length raw_data) 1) [] (fun values i =>
        let? value := struct_unpack_B (slice raw_data i (i + 1)) in
        Ok (values ++ [recover8 value])) in
    let? decoded_bytes := bytes_of_values values in
    Ok (Some decoded_bytes)
  else if sample_width =? 2 then
    let? values :=
      for_res (py_range 0 (length raw_data) 2) [] (fun values i =>
        if (i + 2 <=? length raw_data)%nat then
          let? value := struct_unpack_h (slice raw_data i (i + 2)) in
          Ok (values ++ [recover16 value])
        else Ok values) in
    let? decoded_bytes := bytes_of_values values in
    Ok (Some decoded_bytes)
  else if sample_width =? 4 then
    let? values :=
      for_res (py_range 0 (length raw_data) 4) [] (fun values i =>
        if (i + 4 <=? length raw_data)%nat then
          let? value := struct_unpack_i (slice raw_data i (i + 4)) in
          Ok (values ++ [recover32 value])
        else Ok values) in
    let? decoded_bytes := bytes_of_values values in
    Ok (Some decoded_bytes)
  else Ok None.

Definition msg_not_encoded : string :=
  "This WAV file doesn't contain encoded text data.".

Definition wav_to_text (wav_file output_text_file : string) : M world unit :=
  decoded_bytes <-
    (wav <- wave_open_r wav_file ;;
     let num_channels := getnchannels wav in
     let sample_width := getsampwidth wav in
     let num_frames := getnframes wav in
     let raw_data := readframes wav num_frames in
     lift_res (unpack_frames sample_width raw_data)) ;;
  let header := MAGIC in
  match decoded_bytes with
  | None => raise (UnboundLocalError "decoded_bytes")
  | Some decoded_bytes =>
      if bytes_contains decoded_bytes header then
        let start_idx :=
          bytes_find decoded_bytes header + Z.of_nat (length header) in
        let encoded_data := slice_from decoded_bytes (Z.to_nat start_idx) in
        try_except
          (original_data <- lift_res (b64decode encoded_data) ;;
           open_wb_write output_text_file original_data ;;
           print ("Successfully converted " +:+ wav_file +:+ " to "
                  +:+ output_text_file) ;;
           print ("Recovered file size: " +:+ pretty (length original_data)
                  +:+ " bytes"))
          (fun e => print ("Error decoding data: " +:+ exn_str e))
      else print msg_not_encoded
  end.

(** ** The command line (lines 123-145)

    [sys.argv] is a list of strings.  [sys.exit(1)] ends the script with
    status 1; an exception that nothing catches ends it with status 1 as
    well, and reaching the end of the script ends it with status 0. *)

(** [str.lower] on the letters [A]..[Z]; the two commands are ASCII, so
    the comparisons of the script see no other case mapping. *)
Definition ascii_lower (c : ascii) : ascii :=
  let n := nat_of_ascii c in
  if ((65 <=? n) && (n <=? 90))%nat then ascii_of_nat (n + 32) else c.

Fixpoint str_lower (s : string) : string :=
  match s with
  | EmptyString => EmptyString
  | String c s' => String (ascii_lower c) (str_lower s')
  end.

Inductive status : Type :=
| Finished
| SystemExit (code : Z)
| Uncaught (e : exn).

Definition exit_status (s : status) : Z :=
  match s with
  | Finished => 0
  | SystemExit code => code
  | Uncaught _ => 1
  end.

(** A call at the top level of the script. *)
Definition call (m : M world unit) (w : world) : status * world :=
  match m w with
  | (Ok _, w') => (Finished, w')
  | (Raise e, w') => (Uncaught e, w')
  end.

Definition usage : list string :=
  ["Usage:";
   "  To encode: python script.py encode input.txt output.wav";
   "  To decode: python script.py decode input.wav output.txt"].

Definition main (argv : list string) (w : world) : status * world :=
  if (length argv <? 3)%nat then
    (SystemExit 1, World (fs w) (stdout w ++ usage))
  else
    let command := str_lower (nth 1 argv EmptyString) in
    if String.eqb command "encode" then
      if (length argv <? 4)%nat then
        (SystemExit 1,
         World (fs w)
               (stdout w
                ++ ["Please provide input text file and output WAV file"]))
      else
        call (text_to_wav (nth 2 argv EmptyString) (nth 3 argv EmptyString) 16)
             w
    else if String.eqb command "decode" then
      if (length argv <? 4)%nat then
        (SystemExit 1,
         World (fs w)
               (stdout w
                ++ ["Please provide input WAV file and output text file"]))
      else
        call (wav_to_text (nth 2 argv EmptyString) (nth 3 argv EmptyString)) w
    else
      (Finished,
       World (fs w)
             (stdout w ++ ["Unknown command. Use 'encode' or 'decode'"])).

(** * Vocabulary of the statements *)

(** ** Samples and recovered bytes *)

(** The sample a chunk of the data holds: what [unpack] returns for it. *)
Definition sample_of (unpack : list byte -> res Z) (c : list byte) : Z :=
  match unpack c with
  | Ok v => v
  | Raise _ => 0
  end.

(** The byte the decoder appends for one full sample [c] of the data. *)
Definition decoded_byte (sample_width : Z) (c : list byte) : byte :=
  if sample_width =? 1 then byte_of_Z (recover8 (sample_of struct_unpack_B c))
  else if sample_width =? 2 then
    byte_of_Z (recover16 (sample_of struct_unpack_h c))
  else byte_of_Z (recover32 (sample_of struct_unpack_i c)).

(** The bytes the decoder recovers from a container, if it recovers any. *)
Definition decoded_stream (c : pcm) : res (option (list byte)) :=
  unpack_frames (getsampwidth c) (readframes c (getnframes c)).

(** The decoder's formula as the specification words it: the quotient
    truncated toward zero. *)
Definition spec_recover (divisor : Z) (sample : Z) : Z :=
  Z.min 255 (Z.max 0 (Z.quot sample divisor + 128)).

(** ** Occurrences of a byte string *)

(** [sub] starts at index [j] of [s]. *)
Definition occurs_at (sub s : list byte) (j : nat) : Prop :=
  exists pre post, s = pre ++ sub ++ post /\ length pre = j.

(** [s] reads [pre], then the first occurrence of [sub], then [post]. *)
Definition first_occurrence (sub s pre post : list byte) : Prop :=
  s = pre ++ sub ++ post /\
  forall j, (j < length pre)%nat -> ~ occurs_at sub s j.

(** ** Base64 *)

(** The four sextets of three bytes, and the last sextet of a group of one
    or two bytes, as [b64encode] computes them. *)
Definition six0 (a : byte) : Z := Z.shiftr (byte_to_Z a) 2.

Definition six1 (a b : byte) : Z :=
  Z.lor (Z.shiftl (Z.land (byte_to_Z a) 3) 4) (Z.shiftr (byte_to_Z b) 4).

Definition six2 (b c : byte) : Z :=
  Z.lor (Z.shiftl (Z.land (byte_to_Z b) 15) 2) (Z.shiftr (byte_to_Z c) 6).

Definition six3 (c : byte) : Z := Z.land (byte_to_Z c) 63.

Definition six1_last (a : byte) : Z := Z.shiftl (Z.land (byte_to_Z a) 3) 4.

Definition six2_last (b : byte) : Z := Z.shiftl (Z.land (byte_to_Z b) 15) 2.

Definition is_six (v : Z) : bool := (0 <=? v) && (v <? 64).

(** Base64 text as the specification has it: standard base64 with no line
    wrapping, that is quads of alphabet characters, the last quad ending
    in at most two padding characters. *)
Definition in_alphabet (c : byte) : bool := table_a2b_base64 c <? 64.

Fixpoint valid_base64 (s : list byte) : bool :=
  match s with
  | [] => true
  | c0 :: c1 :: c2 :: c3 :: rest =>
      in_alphabet c0 && in_alphabet c1 &&
      match rest with
      | [] =>
          (in_alphabet c2 && (in_alphabet c3 || Byte.eqb c3 BASE64_PAD))
          || (Byte.eqb c2 BASE64_PAD && Byte.eqb c3 BASE64_PAD)
      | _ :: _ => in_alphabet c2 && in_alphabet c3 && valid_base64 rest
      end
  | _ => false
  end.

(** ** The encoder's output *)

Definition supported (bits_per_sample : Z) : Prop :=
  bits_per_sample = 8 \/ bits_per_sample = 16 \/ bits_per_sample = 32.

(** The bytes [text_to_wav] hands to [writeframes] for one frame byte. *)
Definition frame_sample (bits_per_sample : Z) (b : byte) : res (list byte) :=
  let byte := byte_to_Z b in
  if bits_per_sample =? 8 then struct_pack_B byte
  else if bits_per_sample =? 16 then struct_pack_h ((byte - 128) * 256)
  else if bits_per_sample =? 32 then struct_pack_i ((byte - 128) * 16777216)
  else Ok [].

Definition sample_bytes (bits_per_sample : Z) (b : byte) : list byte :=
  match frame_sample bits_per_sample b with
  | Ok packed => packed
  | Raise _ => []
  end.

(** The writer of [text_to_wav] once [data] has been written. *)
Definition written (path : string) (sw : Z) (data : list byte) : Wave_write :=
  WaveWrite path 1 sw 44100 true data.

(** The container [text_to_wav] leaves on disk for payload [x]. *)
Definition encoded_pcm (wav_file : string) (bits_per_sample : Z)
    (x : list byte) : pcm :=
  container (written wav_file (bits_per_sample / 8)
               (concat (map (sample_bytes bits_per_sample)
                            (MAGIC ++ b64encode x)))).

(** The lines the encoder prints on success. *)
Definition encoder_report (text_file wav_file : string) (text_data : list byte)
    (size : nat) : list string :=
  ["Successfully converted " +:+ text_file +:+ " to " +:+ wav_file;
   "Original file size: " +:+ pretty (length text_data) +:+ " bytes";
   "Encoded WAV file size: " +:+ pretty size +:+ " bytes"].

(** ** The decoder's outcomes *)

(** The lines the decoder prints on success. *)
Definition decoder_report (wav_file output_text_file : string)
    (original_data : list byte) : list string :=
  ["Successfully converted " +:+ wav_file +:+ " to " +:+ output_text_file;
   "Recovered file size: " +:+ pretty (length original_data) +:+ " bytes"].

(** The three ways [wav_to_text] ends once [decoded_bytes] is assigned:
    the payload is written, the decoding error is printed, or the file is
    reported as not encoded. *)
Definition after_header (wav_file output_text_file : string)
    (decoded_bytes : list byte) (w : world) : res unit * world :=
  if bytes_contains decoded_bytes MAGIC then
    match b64decode
            (slice_from decoded_bytes
               (Z.to_nat (bytes_find decoded_bytes MAGIC
                          + Z.of_nat (length MAGIC)))) with
    | Ok original_data =>
        (Ok tt,
         World (<[output_text_file := Plain original_data]> (fs w))
               (stdout w
                ++ decoder_report wav_file output_text_file original_data))
    | Raise e =>
        (Ok tt, World (fs w) (stdout w ++ ["Error decoding data: " +:+ exn_str e]))
    end
  else (Ok tt, World (fs w) (stdout w ++ [msg_not_encoded])).

(** ** Disks for the examples *)

(** A disk with one payload file. *)
Definition disk_with (path : string) (content : list byte) : world :=
  World {[ path := Plain content ]} [].

(** A disk with one container. *)
Definition disk_with_wav (path : string) (c : pcm) : world :=
  World {[ path := Wave c ]} [].

(** ** Further vocabulary: the layout of the samples *)

(** A byte with its top bit inverted: [b + 128] modulo 256. *)
Definition flip_top (b : byte) : byte :=
  byte_of_Z ((byte_to_Z b + 128) mod 256).

(** The bytes of one sample on disk, least significant first. *)
Definition sample_layout (bits_per_sample : Z) (b : byte) : list byte :=
  if bits_per_sample =? 8 then [b]
  else repeat x00 (Z.to_nat (bits_per_sample / 8 - 1)) ++ [flip_top b].

(** * Facts about the model *)

(** ** Bytes *)

Lemma byte_to_Z_range (b : byte) : 0 <= byte_to_Z b < 256.
Proof.
  unfold byte_to_Z. pose proof (Byte.to_N_bounded b). lia.
Qed.

Lemma byte_of_to_Z (b : byte) : byte_of_Z (byte_to_Z b) = b.
Proof.
  unfold byte_of_Z, byte_to_Z. rewrite N2Z.id, Byte.of_to_N. reflexivity.
Qed.

Lemma byte_to_of_Z (z : Z) : 0 <= z < 256 -> byte_to_Z (byte_of_Z z) = z.
Proof.
  intros Hz. unfold byte_of_Z, byte_to_Z.
  destruct (Byte.of_N (Z.to_N z)) as [b|] eqn:E.
  - apply Byte.to_of_N in E. rewrite E. lia.
  - apply Byte.of_N_None_iff in E. lia.
Qed.

Lemma byte_eqb_eq (x y : byte) : Byte.eqb x y = true <-> x = y.
Proof. split; [apply Byte.byte_dec_bl | apply Byte.byte_dec_lb]. Qed.

Lemma byte_eqb_refl (x : byte) : Byte.eqb x x = true.
Proof. apply byte_eqb_eq. reflexivity. Qed.

(** A property of bytes that holds on [0 .. 255] holds of every byte. *)
Lemma forall_bytes (P : byte -> bool) :
  forallb (fun n => P (byte_of_Z (Z.of_nat n))) (seq 0 256) = true ->
  forall b, P b = true.
Proof.
  intros H b. rewrite forallb_forall in H.
  specialize (H (Z.to_nat (byte_to_Z b))).
  pose proof (byte_to_Z_range b) as Hb.
  rewrite Z2Nat.id, byte_of_to_Z in H by lia.
  apply H. apply in_seq. lia.
Qed.

Lemma forall_bytes2 (P : byte -> byte -> bool) :
  forallb (fun n => forallb (fun m =>
     P (byte_of_Z (Z.of_nat n)) (byte_of_Z (Z.of_nat m))) (seq 0 256))
   (seq 0 256) = true ->
  forall a b, P a b = true.
Proof.
  intros H a. apply forall_bytes.
  revert a. apply forall_bytes. 
  rewrite forallb_forall in *. intros n Hn.
  specialize (H n Hn). 
  rewrite forallb_forall in *. exact H.
Qed.

(** ** [struct]: unpacking what was packed *)

Lemma struct_unpack_pack_B (v : Z) :
  0 <= v <= 255 ->
  (let? packed := struct_pack_B v in struct_unpack_B packed) = Ok v.
Proof.
  intros Hv. unfold struct_pack_B.
  replace ((0 <=? v) && (v <=? 255)) with true by lia.
  simpl. rewrite byte_to_of_Z by lia. reflexivity.
Qed.

Lemma struct_unpack_pack_h (v : Z) :
  -32768 <= v <= 32767 ->
  (let? packed := struct_pack_h v in struct_unpack_h packed) = Ok v.
Proof.
  intros Hv. unfold struct_pack_h.
  replace ((-32768 <=? v) && (v <=? 32767)) with true by lia.
  cbn [res_bind struct_unpack_h].
  assert (Hu : 0 <= v mod 65536 < 65536) by (apply Z.mod_pos_bound; lia).
  rewrite !byte_to_of_Z by (Z.div_mod_to_equations; lia).
  f_equal. unfold to_signed. change (65536 / 2) with 32768.
  destruct (Z.ltb_spec (v mod 65536 mod 256 + 256 * (v mod 65536 / 256)) 32768);
    Z.div_mod_to_equations; lia.
Qed.

Lemma struct_unpack_pack_i (v : Z) :
  -2147483648 <= v <= 2147483647 ->
  (let? packed := struct_pack_i v in struct_unpack_i packed) = Ok v.
Proof.
  intros Hv. unfold struct_pack_i.
  replace ((-2147483648 <=? v) && (v <=? 2147483647)) with true by lia.
  cbn [res_bind struct_unpack_i].
  assert (Hu : 0 <= v mod 4294967296 < 4294967296)
    by (apply Z.mod_pos_bound; lia).
  set (u := v mod 4294967296) in *.
  rewrite !byte_to_of_Z by (Z.div_mod_to_equations; lia).
  f_equal. unfold to_signed. change (4294967296 / 2) with 2147483648.
  assert (E : u mod 256 + 256 * (u / 256 mod 256) + 65536 * (u / 65536 mod 256)
              + 16777216 * (u / 16777216) = u)
    by (Z.div_mod_to_equations; lia).
  rewrite E. subst u.
  destruct (Z.ltb_spec (v mod 4294967296) 2147483648);
    Z.div_mod_to_equations; lia.
Qed.

(** ** Ranges, slices and the sample loops *)

Lemma py_range_nil (start stop step : nat) :
  (0 < step)%nat -> (stop <= start)%nat -> py_range start stop step = [].
Proof.
  intros Hs Hle. unfold py_range.
  replace ((stop - start + step - 1) / step)%nat with 0%nat; [reflexivity|].
  symmetry. apply Nat.div_small. lia.
Qed.

Lemma py_range_cons (start stop step : nat) :
  (0 < step)%nat -> (start < stop)%nat ->
  py_range start stop step = start :: py_range (start + step) stop step.
Proof.
  intros Hs Hlt. unfold py_range.
  assert (E : ((stop - start + step - 1) / step
               = S ((stop - (start + step) + step - 1) / step))%nat).
  { destruct (Nat.le_gt_cases (start + step) stop) as [Hge|Hsmall].
    - replace (stop - start + step - 1)%nat
        with (1 * step + (stop - (start + step) + step - 1))%nat by lia.
      rewrite Nat.div_add_l by lia. lia.
    - replace (stop - (start + step))%nat with 0%nat by lia.
      rewrite (Nat.div_small (0 + step - 1) step) by lia.
      replace (stop - start + step - 1)%nat
        with (1 * step + (stop - start - 1))%nat by lia.
      rewrite Nat.div_add_l by lia.
      rewrite Nat.div_small by lia. lia. }
  rewrite E. cbn [seq map]. f_equal; [lia|].
  rewrite <- seq_shift, map_map. apply map_ext. intros j. lia.
Qed.

Lemma slice_at {A} (pre c post : list A) :
  slice (pre ++ c ++ post) (length pre) (length pre + length c) = c.
Proof.
  unfold slice. rewrite drop_app_length.
  replace (length pre + length c - length pre)%nat with (length c) by lia.
  apply take_app_length.
Qed.

(** Every byte string is a run of [k]-byte chunks and a shorter rest. *)
Lemma chunks_exist (k : nat) (raw : list byte) :
  (0 < k)%nat ->
  exists chunks tail,
    raw = concat chunks ++ tail /\
    Forall (fun c => length c = k) chunks /\ (length tail < k)%nat.
Proof.
  intros Hk. remember (length raw) as n eqn:Hn. revert raw Hn.
  induction n as [n IH] using lt_wf_ind. intros raw Hn.
  destruct (Nat.lt_ge_cases (length raw) k) as [Hshort|Hlong].
  - exists [], raw. repeat split; [constructor | assumption].
  - destruct (IH (length (skipn k raw))) with (raw := skipn k raw)
      as (chunks & tail & Hraw & Hall & Htail).
    + rewrite length_skipn. lia.
    + reflexivity.
    + exists (firstn k raw :: chunks), tail. repeat split.
      * cbn [concat]. rewrite <- app_assoc, <- Hraw.
        symmetry. apply firstn_skipn.
      * constructor; [|assumption]. rewrite length_firstn. lia.
      * assumption.
Qed.

Section SampleLoop.
Variable k : nat.
Hypothesis k_pos : (0 < k)%nat.
Variable raw_data : list byte.
Variable body : list Z -> nat -> res (list Z).
Variable g : list byte -> Z.

(** A full sample at index [i] appends its value; a cut-off sample at
    the end of the data appends nothing. *)
Hypothesis body_full : forall values i,
  (i + k <= length raw_data)%nat ->
  body values i = Ok (values ++ [g (slice raw_data i (i + k))]).
Hypothesis body_short : forall values i,
  (i < length raw_data)%nat -> (length raw_data < i + k)%nat ->
  body values i = Ok values.

Lemma sample_loop_from (chunks : list (list byte)) :
  forall (pre tail : list byte) (values : list Z),
    raw_data = pre ++ concat chunks ++ tail ->
    Forall (fun c => length c = k) chunks ->
    (length tail < k)%nat ->
    for_res (py_range (length pre) (length raw_data) k) values body
    = Ok (values ++ map g chunks).
Proof.
  induction chunks as [|c chunks IH]; intros pre tail values Hraw Hall Htail.
  - cbn [concat app map] in *. rewrite app_nil_r.
    destruct tail as [|t tail].
    + rewrite py_range_nil; [reflexivity | assumption |].
      rewrite Hraw, app_nil_r. lia.
    + assert (Hlen : length raw_data = (length pre + S (length tail))%nat)
        by (rewrite Hraw, length_app; reflexivity).
      cbn [length] in Htail.
      rewrite py_range_cons by lia.
      rewrite (py_range_nil (length pre + k)) by lia.
      cbn [for_res]. rewrite body_short by lia. reflexivity.
  - inversion_clear Hall as [|? ? Hc Hall'].
    cbn [concat] in Hraw. rewrite <- app_assoc in Hraw.
    assert (Hlen : (length pre + k <= length raw_data)%nat).
    { rewrite Hraw, !length_app. lia. }
    rewrite py_range_cons by lia.
    cbn [for_res]. rewrite body_full by assumption.
    cbn [res_bind].
    assert (Hslice : slice raw_data (length pre) (length pre + k) = c).
    { rewrite Hraw, <- Hc. apply slice_at. }
    rewrite Hslice.
    replace (length pre + k)%nat with (length (pre ++ c))
      by (rewrite length_app; lia).
    rewrite (IH (pre ++ c) tail (values ++ [g c])).
    + rewrite <- app_assoc. reflexivity.
    + rewrite <- app_assoc. exact Hraw.
    + assumption.
    + assumption.
Qed.

Lemma sample_loop (chunks : list (list byte)) (tail : list byte) :
  raw_data = concat chunks ++ tail ->
  Forall (fun c => length c = k) chunks ->
  (length tail < k)%nat ->
  for_res (py_range 0 (length raw_data) k) [] body = Ok (map g chunks).
Proof.
  intros Hraw Hall Htail.
  exact (sample_loop_from chunks [] tail [] Hraw Hall Htail).
Qed.
End SampleLoop.

(** ** What [unpack_frames] computes *)

Lemma slice_length {A} (s : list A) (i k : nat) :
  (i + k <= length s)%nat -> length (slice s i (i + k)) = k.
Proof.
  intros H. unfold slice. rewrite length_take, length_drop. lia.
Qed.

Lemma bytes_of_values_ok (values : list Z) :
  Forall (fun v => 0 <= v < 256) values ->
  bytes_of_values values = Ok (map byte_of_Z values).
Proof.
  intros H. unfold bytes_of_values.
  replace (forallb _ values) with true; [reflexivity|].
  symmetry. apply forallb_forall. intros v Hv.
  rewrite Forall_forall in H. apply list_elem_of_In in Hv.
  specialize (H v Hv). lia.
Qed.

Lemma recover16_range (v : Z) : 0 <= recover16 v < 256.
Proof. unfold recover16. lia. Qed.

Lemma recover32_range (v : Z) : 0 <= recover32 v < 256.
Proof. unfold recover32. lia. Qed.

Lemma sample_B_range (c : list byte) :
  0 <= recover8 (sample_of struct_unpack_B c) < 256.
Proof.
  unfold recover8, sample_of, struct_unpack_B.
  destruct c as [|b0 [|b1 c]]; try lia. apply byte_to_Z_range.
Qed.

Lemma unpack_frames_1 (raw_data : list byte) :
  unpack_frames 1 raw_data = Ok (Some raw_data).
Proof.
  unfold unpack_frames. cbn [Z.eqb Pos.eqb].
  rewrite (sample_loop 1 ltac:(lia) raw_data _
             (fun c => recover8 (sample_of struct_unpack_B c)))
    with (chunks := map (fun b => [b]) raw_data) (tail := []).
  - cbn [res_bind]. rewrite bytes_of_values_ok.
    + cbn [res_bind]. do 2 f_equal. rewrite !map_map.
      rewrite <- (map_id raw_data) at 2. apply map_ext. intros b.
      unfold sample_of, recover8. cbn. apply byte_of_to_Z.
    + apply Forall_forall. intros v Hv. apply list_elem_of_In in Hv.
      apply in_map_iff in Hv as (c & <- & _). apply sample_B_range.
  - intros values i Hi.
    pose proof (slice_length raw_data i 1 Hi) as Hlen.
    destruct (slice raw_data i (i + 1)) as [|b0 [|b1 c]]; try discriminate.
    reflexivity.
  - intros values i Hlt Hgt. lia.
  - rewrite app_nil_r. induction raw_data as [|b raw IH]; [reflexivity|].
    cbn. f_equal. exact IH.
  - apply Forall_forall. intros c Hc. apply list_elem_of_In in Hc.
    apply in_map_iff in Hc as (b & <- & _). reflexivity.
  - cbn. lia.
Qed.

Lemma unpack_frames_2 (raw_data : list byte) chunks tail :
  raw_data = concat chunks ++ tail ->
  Forall (fun c => length c = 2%nat) chunks ->
  (length tail < 2)%nat ->
  unpack_frames 2 raw_data = Ok (Some (map (decoded_byte 2) chunks)).
Proof.
  intros Hraw Hall Htail.
  unfold unpack_frames. cbn [Z.eqb Pos.eqb].
  rewrite (sample_loop 2 ltac:(lia) raw_data _
             (fun c => recover16 (sample_of struct_unpack_h c)))
    with (chunks := chunks) (tail := tail); try assumption.
  - cbn [res_bind]. rewrite bytes_of_values_ok.
    + cbn [res_bind]. rewrite map_map. reflexivity.
    + apply Forall_forall. intros v Hv. apply list_elem_of_In in Hv.
      apply in_map_iff in Hv as (c & <- & _). apply recover16_range.
  - intros values i Hi.
    replace (i + 2 <=? length raw_data)%nat with true
      by (symmetry; apply Nat.leb_le; exact Hi).
    pose proof (slice_length raw_data i 2 Hi) as Hlen.
    destruct (slice raw_data i (i + 2)) as [|b0 [|b1 [|b2 c]]];
      try discriminate.
    reflexivity.
  - intros values i Hlt Hgt.
    replace (i + 2 <=? length raw_data)%nat with false; [reflexivity|].
    symmetry. apply Nat.leb_gt. exact Hgt.
Qed.

Lemma unpack_frames_4 (raw_data : list byte) chunks tail :
  raw_data = concat chunks ++ tail ->
  Forall (fun c => length c = 4%nat) chunks ->
  (length tail < 4)%nat ->
  unpack_frames 4 raw_data = Ok (Some (map (decoded_byte 4) chunks)).
Proof.
  intros Hraw Hall Htail.
  unfold unpack_frames. cbn [Z.eqb Pos.eqb].
  rewrite (sample_loop 4 ltac:(lia) raw_data _
             (fun c => recover32 (sample_of struct_unpack_i c)))
    with (chunks := chunks) (tail := tail); try assumption.
  - cbn [res_bind]. rewrite bytes_of_values_ok.
    + cbn [res_bind]. rewrite map_map. reflexivity.
    + apply Forall_forall. intros v Hv. apply list_elem_of_In in Hv.
      apply in_map_iff in Hv as (c & <- & _). apply recover32_range.
  - intros values i Hi.
    replace (i + 4 <=? length raw_data)%nat with true
      by (symmetry; apply Nat.leb_le; exact Hi).
    pose proof (slice_length raw_data i 4 Hi) as Hlen.
    destruct (slice raw_data i (i + 4)) as [|b0 [|b1 [|b2 [|b3 [|b4 c]]]]];
      try discriminate.
    reflexivity.
  - intros values i Hlt Hgt.
    replace (i + 4 <=? length raw_data)%nat with false; [reflexivity|].
    symmetry. apply Nat.leb_gt. exact Hgt.
Qed.

(** For the three sample widths the program knows, the loop ends without
    an exception and assigns [decoded_bytes]; for any other width nothing
    is assigned. *)
Lemma unpack_frames_total (sample_width : Z) (raw_data : list byte) :
  sample_width = 1 \/ sample_width = 2 \/ sample_width = 4 ->
  exists decoded_bytes, unpack_frames sample_width raw_data = Ok (Some decoded_bytes).
Proof.
  intros [->|[->| ->]].
  - eexists. apply unpack_frames_1.
  - destruct (chunks_exist 2 raw_data ltac:(lia)) as (cs & tl & H1 & H2 & H3).
    eexists. eapply unpack_frames_2; eassumption.
  - destruct (chunks_exist 4 raw_data ltac:(lia)) as (cs & tl & H1 & H2 & H3).
    eexists. eapply unpack_frames_4; eassumption.
Qed.

Lemma unpack_frames_other (sample_width : Z) (raw_data : list byte) :
  sample_width <> 1 -> sample_width <> 2 -> sample_width <> 4 ->
  unpack_frames sample_width raw_data = Ok None.
Proof.
  intros H1 H2 H4. unfold unpack_frames.
  destruct (Z.eqb_spec sample_width 1); [contradiction|].
  destruct (Z.eqb_spec sample_width 2); [contradiction|].
  destruct (Z.eqb_spec sample_width 4); [contradiction|].
  reflexivity.
Qed.

(** One decoded byte per full sample, for each of the three widths. *)
Lemma unpack_frames_chunks (sample_width : Z) chunks tail :
  sample_width = 1 \/ sample_width = 2 \/ sample_width = 4 ->
  Forall (fun c => length c = Z.to_nat sample_width) chunks ->
  (length tail < Z.to_nat sample_width)%nat ->
  unpack_frames sample_width (concat chunks ++ tail)
  = Ok (Some (map (decoded_byte sample_width) chunks)).
Proof.
  intros [->|[->| ->]] Hall Htail.
  - rewrite unpack_frames_1. do 2 f_equal.
    destruct tail; [|cbn in Htail; lia]. rewrite app_nil_r.
    induction Hall as [|c chunks Hc Hall IH]; [reflexivity|].
    destruct c as [|b [|b' c]]; try discriminate.
    cbn [concat map app]. rewrite IH. f_equal.
    unfold decoded_byte, sample_of, recover8. cbn. symmetry. apply byte_of_to_Z.
  - apply unpack_frames_2 with (tail := tail); [reflexivity | exact Hall | exact Htail].
  - apply unpack_frames_4 with (tail := tail); [reflexivity | exact Hall | exact Htail].
Qed.

(** ** Searching for a byte string *)

Lemma is_prefix_spec (sub s : list byte) :
  is_prefix sub s = true <-> exists post, s = sub ++ post.
Proof.
  revert s. induction sub as [|x sub IH]; intros s.
  - cbn. split; [intros _; exists s; reflexivity | reflexivity].
  - destruct s as [|y s]; cbn [is_prefix].
    + split; [discriminate | intros [post H]; discriminate].
    + rewrite andb_true_iff, byte_eqb_eq, IH. split.
      * intros [-> [post ->]]. exists post. reflexivity.
      * intros [post H]. injection H as -> ->. split; [reflexivity|].
        exists post. reflexivity.
Qed.

Lemma occurs_at_0 (sub s : list byte) :
  occurs_at sub s 0 <-> is_prefix sub s = true.
Proof.
  rewrite is_prefix_spec. split.
  - intros (pre & post & -> & Hlen). destruct pre; [|discriminate].
    exists post. reflexivity.
  - intros [post ->]. exists [], post. split; reflexivity.
Qed.

Lemma occurs_at_S (sub : list byte) (y : byte) (s : list byte) (j : nat) :
  occurs_at sub (y :: s) (S j) <-> occurs_at sub s j.
Proof.
  split.
  - intros (pre & post & H & Hlen). destruct pre as [|p pre]; [discriminate|].
    cbn in H. injection H as -> ->. exists pre, post.
    split; [reflexivity | cbn in Hlen; lia].
  - intros (pre & post & -> & Hlen). exists (y :: pre), post.
    split; [reflexivity | cbn; lia].
Qed.

Lemma bytes_contains_spec (s sub : list byte) :
  bytes_contains s sub = true <-> exists j, occurs_at sub s j.
Proof.
  induction s as [|y s IH]; cbn [bytes_contains].
  - rewrite orb_false_r, <- occurs_at_0. split.
    + intros H. exists 0%nat. exact H.
    + intros [j (pre & post & H & Hlen)].
      destruct pre; [|discriminate]. exists [], post. split; [exact H|reflexivity].
  - rewrite orb_true_iff, IH, <- occurs_at_0. split.
    + intros [H | [j H]]; [exists 0%nat; exact H|].
      exists (S j). apply occurs_at_S. exact H.
    + intros [[|j] H]; [left; exact H|].
      right. exists j. apply occurs_at_S in H. exact H.
Qed.

Lemma bytes_find_from_first (sub : list byte) :
  forall (pre post : list byte) (i : nat),
    first_occurrence sub (pre ++ sub ++ post) pre post ->
    bytes_find_from (pre ++ sub ++ post) sub i = Z.of_nat (i + length pre).
Proof.
  induction pre as [|y pre IH]; intros post i [_ Hfirst].
  - cbn [app length]. unfold bytes_find_from.
    assert (H : is_prefix sub (sub ++ post) = true)
      by (apply is_prefix_spec; exists post; reflexivity).
    destruct (sub ++ post); rewrite H; f_equal; lia.
  - cbn [app bytes_find_from].
    destruct (is_prefix sub (y :: pre ++ sub ++ post)) eqn:E.
    + exfalso. apply (Hfirst 0%nat); [cbn; lia|].
      apply occurs_at_0. exact E.
    + rewrite IH.
      * cbn [length]. f_equal. lia.
      * split; [reflexivity|]. intros j Hj Hocc.
        apply (Hfirst (S j)); [cbn; lia|].
        apply occurs_at_S. exact Hocc.
Qed.

Lemma bytes_find_first (sub pre post : list byte) :
  first_occurrence sub (pre ++ sub ++ post) pre post ->
  bytes_find (pre ++ sub ++ post) sub = Z.of_nat (length pre).
Proof.
  intros H. unfold bytes_find. rewrite bytes_find_from_first by exact H.
  reflexivity.
Qed.

Lemma bytes_find_from_absent (s sub : list byte) (i : nat) :
  bytes_contains s sub = false -> bytes_find_from s sub i = -1.
Proof.
  revert i. induction s as [|y s IH]; intros i; cbn [bytes_contains bytes_find_from];
    intros H; apply orb_false_iff in H as [H1 H2]; rewrite H1.
  - reflexivity.
  - apply IH. exact H2.
Qed.

(** Where [sub] occurs at all, it has a first occurrence. *)
Lemma first_occurrence_exists (s sub : list byte) :
  bytes_contains s sub = true ->
  exists pre post, first_occurrence sub s pre post.
Proof.
  induction s as [|y s IH]; cbn [bytes_contains]; intros H.
  - rewrite orb_false_r in H. apply is_prefix_spec in H as [post H].
    exists [], post. split; [exact H | cbn; intros j Hj; lia].
  - destruct (is_prefix sub (y :: s)) eqn:E.
    + apply is_prefix_spec in E as [post E].
      exists [], post. split; [exact E | cbn; intros j Hj; lia].
    + cbn in H. destruct (IH H) as (pre & post & Hs & Hfirst).
      exists (y :: pre), post. split; [rewrite Hs; reflexivity|].
      intros [|j] Hj Hocc.
      * apply occurs_at_0 in Hocc. congruence.
      * apply occurs_at_S in Hocc. apply (Hfirst j); [cbn in Hj; lia | exact Hocc].
Qed.

(** The bytes the decoder hands to [b64decode]: those after the first
    occurrence of the header. *)
Lemma payload_after_first (sub pre post : list byte) :
  first_occurrence sub (pre ++ sub ++ post) pre post ->
  slice_from (pre ++ sub ++ post)
    (Z.to_nat (bytes_find (pre ++ sub ++ post) sub + Z.of_nat (length sub)))
  = post.
Proof.
  intros H. rewrite bytes_find_first by exact H.
  unfold slice_from.
  replace (Z.to_nat (Z.of_nat (length pre) + Z.of_nat (length sub)))
    with (length (pre ++ sub)) by (rewrite length_app; lia).
  rewrite app_assoc. apply drop_app_length.
Qed.

Lemma first_occurrence_at_start (sub post : list byte) :
  first_occurrence sub (sub ++ post) [] post.
Proof. split; [reflexivity | cbn; intros j Hj; lia]. Qed.

(** ** Base64: decoding what was encoded *)

Lemma list_ind3 {A} (P : list A -> Prop) :
  P [] -> (forall a, P [a]) -> (forall a b, P [a; b]) ->
  (forall a b c rest, P rest -> P (a :: b :: c :: rest)) ->
  forall l, P l.
Proof.
  intros H0 H1 H2 H3.
  fix IH 1. intros [|a [|b [|c rest]]].
  - exact H0.
  - apply H1.
  - apply H2.
  - apply H3. apply IH.
Qed.

(** The two tables are inverse on the 64 values of a sextet, and no
    alphabet character is the padding character. *)
Lemma table_a2b_b2a (six : Z) :
  0 <= six < 64 ->
  table_a2b_base64 (b2a six) = six /\ Byte.eqb (b2a six) BASE64_PAD = false.
Proof.
  intros H.
  assert (Hall : forallb (fun n =>
            (table_a2b_base64 (b2a (Z.of_nat n)) =? Z.of_nat n)
            && negb (Byte.eqb (b2a (Z.of_nat n)) BASE64_PAD)) (seq 0 64) = true)
    by (vm_compute; reflexivity).
  rewrite forallb_forall in Hall.
  assert (Hin : In (Z.to_nat six) (seq 0 64)) by (apply in_seq; lia).
  apply Hall in Hin. rewrite Z2Nat.id in Hin by lia.
  apply andb_true_iff in Hin as [H1 H2].
  split; [apply Z.eqb_eq; exact H1 | apply negb_true_iff; exact H2].
Qed.

(** One step of the loop on an alphabet character. *)
Lemma a2b_loop_data (six : Z) rest quad_pos leftchar pads bin :
  0 <= six < 64 ->
  a2b_loop (b2a six :: rest) quad_pos leftchar pads bin =
  match quad_pos with
  | 0%nat => a2b_loop rest 1 six 0 bin
  | 1%nat =>
      a2b_loop rest 2 (Z.land six 15) 0
        (bin ++ [byte_of_Z (Z.land (Z.lor (Z.shiftl leftchar 2)
                                          (Z.shiftr six 4)) 255)])
  | 2%nat =>
      a2b_loop rest 3 (Z.land six 3) 0
        (bin ++ [byte_of_Z (Z.land (Z.lor (Z.shiftl leftchar 4)
                                          (Z.shiftr six 2)) 255)])
  | _ =>
      a2b_loop rest 0 0 0
        (bin ++ [byte_of_Z (Z.land (Z.lor (Z.shiftl leftchar 6) six) 255)])
  end.
Proof.
  intros H. destruct (table_a2b_b2a six H) as [Ht Hp].
  cbn [a2b_loop]. rewrite Hp, Ht.
  replace (64 <=? six) with false by lia. reflexivity.
Qed.

(** Facts about the sextets of one, two and three bytes, each checked on
    every value of the bytes it mentions. *)
Ltac all_bytes1 :=
  let b := fresh "b" in
  intros b; pattern b; revert b;
  match goal with
  | |- forall b, (fun x => @?P x = true) b => apply (forall_bytes P)
  end; vm_compute; reflexivity.

Ltac all_bytes2 :=
  let a := fresh "a" in let b := fresh "b" in
  intros a b; pattern a, b; revert a b;
  match goal with
  | |- forall a b, (fun x y => @?P x y = true) a b => apply (forall_bytes2 P)
  end; vm_compute; reflexivity.

Lemma is_six_range v : is_six v = true -> 0 <= v < 64.
Proof. unfold is_six. lia. Qed.

Lemma six0_ok : forall a, is_six (six0 a) = true.
Proof. all_bytes1. Qed.
Lemma six1_ok : forall a b, is_six (six1 a b) = true.
Proof. all_bytes2. Qed.
Lemma six2_ok : forall b c, is_six (six2 b c) = true.
Proof. all_bytes2. Qed.
Lemma six3_ok : forall c, is_six (six3 c) = true.
Proof. all_bytes1. Qed.
Lemma six1_last_ok : forall a, is_six (six1_last a) = true.
Proof. all_bytes1. Qed.
Lemma six2_last_ok : forall b, is_six (six2_last b) = true.
Proof. all_bytes1. Qed.

Lemma out0 : forall a b,
  Byte.eqb (byte_of_Z (Z.land (Z.lor (Z.shiftl (six0 a) 2)
                                    (Z.shiftr (six1 a b) 4)) 255)) a = true.
Proof. all_bytes2. Qed.

Lemma out0_last : forall a,
  Byte.eqb (byte_of_Z (Z.land (Z.lor (Z.shiftl (six0 a) 2)
                                    (Z.shiftr (six1_last a) 4)) 255)) a = true.
Proof. all_bytes1. Qed.

Lemma left1 : forall a b,
  (Z.land (six1 a b) 15 =? Z.shiftr (byte_to_Z b) 4) = true.
Proof. all_bytes2. Qed.

Lemma right2 : forall b c,
  (Z.shiftr (six2 b c) 2 =? Z.land (byte_to_Z b) 15) = true.
Proof. all_bytes2. Qed.

Lemma right2_last : forall b,
  (Z.shiftr (six2_last b) 2 =? Z.land (byte_to_Z b) 15) = true.
Proof. all_bytes1. Qed.

Lemma out1 : forall b,
  Byte.eqb (byte_of_Z (Z.land (Z.lor (Z.shiftl (Z.shiftr (byte_to_Z b) 4) 4)
                                    (Z.land (byte_to_Z b) 15)) 255)) b = true.
Proof. all_bytes1. Qed.

Lemma left2 : forall b c,
  (Z.land (six2 b c) 3 =? Z.shiftr (byte_to_Z c) 6) = true.
Proof. all_bytes2. Qed.

Lemma out2 : forall c,
  Byte.eqb (byte_of_Z (Z.land (Z.lor (Z.shiftl (Z.shiftr (byte_to_Z c) 6) 6)
                                    (six3 c)) 255)) c = true.
Proof. all_bytes1. Qed.

Lemma b64encode_1 (a : byte) :
  b64encode [a] = [b2a (six0 a); b2a (six1_last a); BASE64_PAD; BASE64_PAD].
Proof. reflexivity. Qed.

Lemma b64encode_2 (a b : byte) :
  b64encode [a; b]
  = [b2a (six0 a); b2a (six1 a b); b2a (six2_last b); BASE64_PAD].
Proof. reflexivity. Qed.

Lemma b64encode_3 (a b c : byte) (rest : list byte) :
  b64encode (a :: b :: c :: rest)
  = b2a (six0 a) :: b2a (six1 a b) :: b2a (six2 b c) :: b2a (six3 c)
    :: b64encode rest.
Proof. reflexivity. Qed.

(** The decoder's state after the characters of a full quad. *)
Lemma a2b_loop_quad (a b c : byte) (rest bin : list byte) :
  a2b_loop (b2a (six0 a) :: b2a (six1 a b) :: b2a (six2 b c) :: b2a (six3 c)
            :: rest) 0 0 0 bin
  = a2b_loop rest 0 0 0 (bin ++ [a; b; c]).
Proof.
  rewrite a2b_loop_data by (apply is_six_range, six0_ok).
  rewrite a2b_loop_data by (apply is_six_range, six1_ok).
  rewrite a2b_loop_data by (apply is_six_range, six2_ok).
  rewrite a2b_loop_data by (apply is_six_range, six3_ok).
  pose proof (out0 a b) as H0. apply byte_eqb_eq in H0. rewrite H0.
  pose proof (left1 a b) as H1. apply Z.eqb_eq in H1. rewrite H1.
  pose proof (right2 b c) as H2. apply Z.eqb_eq in H2. rewrite H2.
  pose proof (out1 b) as H3. apply byte_eqb_eq in H3. rewrite H3.
  pose proof (left2 b c) as H4. apply Z.eqb_eq in H4. rewrite H4.
  pose proof (out2 c) as H5. apply byte_eqb_eq in H5. rewrite H5.
  rewrite <- !app_assoc. reflexivity.
Qed.

Lemma a2b_loop_encoded (x : list byte) :
  forall bin, a2b_loop (b64encode x) 0 0 0 bin = Ok (bin ++ x).
Proof.
  induction x as [|a|a b|a b c rest IH] using list_ind3; intros bin.
  - cbn. rewrite app_nil_r. reflexivity.
  - rewrite b64encode_1.
    rewrite a2b_loop_data by (apply is_six_range, six0_ok).
    rewrite a2b_loop_data by (apply is_six_range, six1_last_ok).
    pose proof (out0_last a) as H0. apply byte_eqb_eq in H0. rewrite H0.
    reflexivity.
  - rewrite b64encode_2.
    rewrite a2b_loop_data by (apply is_six_range, six0_ok).
    rewrite a2b_loop_data by (apply is_six_range, six1_ok).
    rewrite a2b_loop_data by (apply is_six_range, six2_last_ok).
    pose proof (out0 a b) as H0. apply byte_eqb_eq in H0. rewrite H0.
    pose proof (left1 a b) as H1. apply Z.eqb_eq in H1. rewrite H1.
    pose proof (right2_last b) as H2. apply Z.eqb_eq in H2. rewrite H2.
    pose proof (out1 b) as H3. apply byte_eqb_eq in H3. rewrite H3.
    cbn. rewrite <- app_assoc. reflexivity.
  - rewrite b64encode_3, a2b_loop_quad, IH, <- app_assoc. reflexivity.
Qed.

(** [b64decode(b64encode(x)) == x] *)
Lemma b64decode_b64encode (x : list byte) : b64decode (b64encode x) = Ok x.
Proof. unfold b64decode. apply a2b_loop_encoded. Qed.

Lemma b64encode_length (x : list byte) :
  (length (b64encode x) mod 4 = 0)%nat.
Proof.
  induction x as [|a|a b|a b c rest IH] using list_ind3; try reflexivity.
  rewrite b64encode_3. cbn [length].
  replace (S (S (S (S (length (b64encode rest))))))
    with (length (b64encode rest) + 1 * 4)%nat by lia.
  rewrite Nat.Div0.mod_add. exact IH.
Qed.

(** Cutting the base64 text of a payload anywhere but at the end of a quad
    leaves data characters without their padding: decoding fails. *)
Lemma a2b_loop_truncated (x : list byte) :
  forall (n : nat) (bin : list byte),
    (n < length (b64encode x))%nat -> (n mod 4 <> 0)%nat ->
    exists e, a2b_loop (firstn n (b64encode x)) 0 0 0 bin = Raise e.
Proof.
  induction x as [|a|a b|a b c rest IH] using list_ind3; intros n bin Hn Hmod.
  - cbn in Hn. lia.
  - rewrite b64encode_1 in *. cbn [length] in Hn.
    destruct n as [|[|[|[|n]]]]; cbn [firstn]; try lia.
    + cbn in Hmod. lia.
    + rewrite a2b_loop_data by (apply is_six_range, six0_ok).
      cbn. eexists. reflexivity.
    + rewrite a2b_loop_data by (apply is_six_range, six0_ok).
      rewrite a2b_loop_data by (apply is_six_range, six1_last_ok).
      cbn. eexists. reflexivity.
    + rewrite a2b_loop_data by (apply is_six_range, six0_ok).
      rewrite a2b_loop_data by (apply is_six_range, six1_last_ok).
      cbn. eexists. reflexivity.
  - rewrite b64encode_2 in *. cbn [length] in Hn.
    destruct n as [|[|[|[|n]]]]; cbn [firstn]; try lia.
    + cbn in Hmod. lia.
    + rewrite a2b_loop_data by (apply is_six_range, six0_ok).
      cbn. eexists. reflexivity.
    + rewrite a2b_loop_data by (apply is_six_range, six0_ok).
      rewrite a2b_loop_data by (apply is_six_range, six1_ok).
      cbn. eexists. reflexivity.
    + rewrite a2b_loop_data by (apply is_six_range, six0_ok).
      rewrite a2b_loop_data by (apply is_six_range, six1_ok).
      rewrite a2b_loop_data by (apply is_six_range, six2_last_ok).
      cbn. eexists. reflexivity.
  - rewrite b64encode_3 in *. cbn [length] in Hn.
    destruct n as [|[|[|[|n]]]]; cbn [firstn].
    + cbn in Hmod. lia.
    + rewrite a2b_loop_data by (apply is_six_range, six0_ok).
      cbn. eexists. reflexivity.
    + rewrite a2b_loop_data by (apply is_six_range, six0_ok).
      rewrite a2b_loop_data by (apply is_six_range, six1_ok).
      cbn. eexists. reflexivity.
    + rewrite a2b_loop_data by (apply is_six_range, six0_ok).
      rewrite a2b_loop_data by (apply is_six_range, six1_ok).
      rewrite a2b_loop_data by (apply is_six_range, six2_ok).
      cbn. eexists. reflexivity.
    + rewrite a2b_loop_quad. apply IH; [lia|].
      replace (S (S (S (S n)))) with (n + 1 * 4)%nat in Hmod by lia.
      rewrite Nat.Div0.mod_add in Hmod. exact Hmod.
Qed.

Lemma b64decode_truncated (x : list byte) (n : nat) :
  (n < length (b64encode x))%nat -> (n mod 4 <> 0)%nat ->
  exists e, b64decode (firstn n (b64encode x)) = Raise e.
Proof. intros Hn Hmod. unfold b64decode. apply a2b_loop_truncated; assumption. Qed.

(** ** The encoder's samples *)

Lemma frame_sample_ok (bits_per_sample : Z) (b : byte) :
  supported bits_per_sample ->
  frame_sample bits_per_sample b = Ok (sample_bytes bits_per_sample b).
Proof.
  pose proof (byte_to_Z_range b) as Hb.
  intros [->|[->| ->]]; unfold sample_bytes, frame_sample; cbn [Z.eqb Pos.eqb].
  - unfold struct_pack_B.
    replace ((0 <=? byte_to_Z b) && (byte_to_Z b <=? 255)) with true by lia.
    reflexivity.
  - unfold struct_pack_h.
    replace ((-32768 <=? (byte_to_Z b - 128) * 256)
             && ((byte_to_Z b - 128) * 256 <=? 32767)) with true by lia.
    reflexivity.
  - unfold struct_pack_i.
    replace ((-2147483648 <=? (byte_to_Z b - 128) * 16777216)
             && ((byte_to_Z b - 128) * 16777216 <=? 2147483647))
      with true by lia.
    reflexivity.
Qed.

Lemma sample_bytes_length (bits_per_sample : Z) (b : byte) :
  supported bits_per_sample ->
  length (sample_bytes bits_per_sample b) = Z.to_nat (bits_per_sample / 8).
Proof.
  intros H. pose proof (frame_sample_ok bits_per_sample b H) as E.
  pose proof (byte_to_Z_range b) as Hb.
  destruct H as [->|[->| ->]]; unfold frame_sample in E; cbn [Z.eqb Pos.eqb] in E.
  - unfold struct_pack_B in E.
    destruct ((0 <=? byte_to_Z b) && (byte_to_Z b <=? 255));
      [|discriminate]. injection E as <-. reflexivity.
  - unfold struct_pack_h in E.
    destruct ((-32768 <=? (byte_to_Z b - 128) * 256)
              && ((byte_to_Z b - 128) * 256 <=? 32767));
      [|discriminate]. injection E as <-. reflexivity.
  - unfold struct_pack_i in E.
    destruct ((-2147483648 <=? (byte_to_Z b - 128) * 16777216)
              && ((byte_to_Z b - 128) * 16777216 <=? 2147483647));
      [|discriminate]. injection E as <-. reflexivity.
Qed.

(** Reading a sample back and undoing the scaling gives the frame byte. *)
Lemma decoded_sample_bytes (bits_per_sample : Z) (b : byte) :
  supported bits_per_sample ->
  decoded_byte (bits_per_sample / 8) (sample_bytes bits_per_sample b) = b.
Proof.
  intros H. pose proof (frame_sample_ok bits_per_sample b H) as E.
  pose proof (byte_to_Z_range b) as Hb.
  destruct H as [->|[->| ->]]; unfold frame_sample in E; cbn [Z.eqb Pos.eqb] in E.
  - pose proof (struct_unpack_pack_B (byte_to_Z b) ltac:(lia)) as R.
    rewrite E in R. cbn [res_bind] in R.
    change (8 / 8) with 1. unfold decoded_byte, sample_of. cbn [Z.eqb Pos.eqb].
    rewrite R. unfold recover8. apply byte_of_to_Z.
  - pose proof (struct_unpack_pack_h ((byte_to_Z b - 128) * 256) ltac:(lia)) as R.
    rewrite E in R. cbn [res_bind] in R.
    change (16 / 8) with 2. unfold decoded_byte, sample_of. cbn [Z.eqb Pos.eqb].
    rewrite R. unfold recover16.
    rewrite Z.div_mul by lia.
    replace (Z.min 255 (Z.max 0 (byte_to_Z b - 128 + 128))) with (byte_to_Z b)
      by lia.
    apply byte_of_to_Z.
  - pose proof (struct_unpack_pack_i ((byte_to_Z b - 128) * 16777216)
                  ltac:(lia)) as R.
    rewrite E in R. cbn [res_bind] in R.
    change (32 / 8) with 4. unfold decoded_byte, sample_of. cbn [Z.eqb Pos.eqb].
    rewrite R. unfold recover32.
    rewrite Z.div_mul by lia.
    replace (Z.min 255 (Z.max 0 (byte_to_Z b - 128 + 128))) with (byte_to_Z b)
      by lia.
    apply byte_of_to_Z.
Qed.

(** ** Running the encoder *)

Section EncoderLoop.
Variable path : string.
Variable sw : Z.
Variable body : byte -> M (Wave_write * world) unit.
Variable enc : byte -> list byte.

Hypothesis body_writes : forall b hw data files out,
  body b (WaveWrite path 1 sw 44100 hw data, World files out)
  = (Ok tt,
     (written path sw (data ++ enc b),
      World (<[path := Wave (container (written path sw (data ++ enc b)))]> files)
            out)).

Lemma for_each_writes (frame : list byte) :
  forall hw data files out,
    frame <> [] ->
    for_each frame body (WaveWrite path 1 sw 44100 hw data, World files out)
    = (Ok tt,
       (written path sw (data ++ concat (map enc frame)),
        World (<[path := Wave (container
                                 (written path sw (data ++ concat (map enc frame))))]>
                 files) out)).
Proof.
  induction frame as [|b frame IH]; intros hw data files out Hne;
    [contradiction|].
  cbn [for_each]. unfold bind at 1. rewrite body_writes.
  destruct frame as [|b' frame].
  - cbn. rewrite app_nil_r. reflexivity.
  - unfold written at 1. rewrite IH by discriminate.
    rewrite insert_insert_eq. cbn [map concat].
    rewrite <- !app_assoc. reflexivity.
Qed.
End EncoderLoop.

Lemma writeframes_run path sw hw data packed files out :
  sw <> 0 ->
  writeframes packed (WaveWrite path 1 sw 44100 hw data, World files out)
  = (Ok tt,
     (written path sw (data ++ packed),
      World (<[path := Wave (container (written path sw (data ++ packed)))]>
               files) out)).
Proof.
  intros Hsw. unfold writeframes, bind, ensure_header_written.
  cbn [w_headerwritten w_nchannels w_sampwidth w_framerate w_data w_file].
  destruct hw.
  - reflexivity.
  - cbn [Z.eqb]. destruct (Z.eqb_spec sw 0); [contradiction|].
    unfold flush. cbn [w_file fs stdout w_headerwritten w_nchannels
                       w_sampwidth w_framerate w_data].
    rewrite insert_insert_eq. reflexivity.
Qed.

Lemma bind_ok {S A B} (m : M S A) (k : A -> M S B) s a s' :
  m s = (Ok a, s') -> bind m k s = k a s'.
Proof. intros H. unfold bind. rewrite H. reflexivity. Qed.

Lemma bind_raise {S A B} (m : M S A) (k : A -> M S B) s e s' :
  m s = (Raise e, s') -> bind m k s = (Raise e, s').
Proof. intros H. unfold bind. rewrite H. reflexivity. Qed.

Lemma setnchannels_run n path c sw r hw w :
  1 <= n ->
  setnchannels n (WaveWrite path c sw r hw [], w)
  = (Ok tt, (WaveWrite path n sw r hw [], w)).
Proof.
  intros H. unfold setnchannels. cbn.
  replace (n <? 1) with false by lia. reflexivity.
Qed.

Lemma setsampwidth_run n path c sw r hw w :
  1 <= n <= 4 ->
  setsampwidth n (WaveWrite path c sw r hw [], w)
  = (Ok tt, (WaveWrite path c n r hw [], w)).
Proof.
  intros H. unfold setsampwidth. cbn.
  replace ((n <? 1) || (4 <? n)) with false by lia. reflexivity.
Qed.

Lemma setsampwidth_bad n path c sw r hw w :
  ~ 1 <= n <= 4 ->
  setsampwidth n (WaveWrite path c sw r hw [], w)
  = (Raise (WaveError "bad sample width"), (WaveWrite path c sw r hw [], w)).
Proof.
  intros H. unfold setsampwidth. cbn.
  replace ((n <? 1) || (4 <? n)) with true by lia. reflexivity.
Qed.

Lemma setframerate_run n path c sw r hw w :
  0 < n ->
  setframerate n (WaveWrite path c sw r hw [], w)
  = (Ok tt, (WaveWrite path c sw n hw [], w)).
Proof.
  intros H. unfold setframerate. cbn.
  replace (n <=? 0) with false by lia. reflexivity.
Qed.

Lemma for_each_skip {S X} (body : X -> M S unit) (xs : list X) (s : S) :
  (forall x s', body x s' = (Ok tt, s')) ->
  for_each xs body s = (Ok tt, s).
Proof.
  intros Hbody. induction xs as [|x xs IH]; [reflexivity|].
  cbn [for_each]. erewrite bind_ok by apply Hbody. exact IH.
Qed.

(** One pass of the loop body on the writer [text_to_wav] has set up:
    the sample of the frame byte is appended to the data. *)
Lemma write_sample_run (bits_per_sample : Z) (b : byte) path hw data files out :
  supported bits_per_sample ->
  write_sample bits_per_sample (byte_to_Z b)
    (WaveWrite path 1 (bits_per_sample / 8) 44100 hw data, World files out)
  = (Ok tt,
     (written path (bits_per_sample / 8)
        (data ++ sample_bytes bits_per_sample b),
      World (<[path := Wave (container
                               (written path (bits_per_sample / 8)
                                  (data ++ sample_bytes bits_per_sample b)))]>
               files) out)).
Proof.
  intros Hs.
  assert (Hsw : bits_per_sample / 8 <> 0)
    by (destruct Hs as [->|[->| ->]]; discriminate).
  pose proof (frame_sample_ok bits_per_sample b Hs) as E.
  unfold frame_sample in E. unfold write_sample. cbn zeta in E |- *.
  destruct Hs as [->|[->| ->]]; cbn [Z.eqb Pos.eqb] in E |- *;
    unfold bind at 1, lift_res; rewrite E; apply writeframes_run; exact Hsw.
Qed.

(** The [with] block of [text_to_wav] for a supported depth: the file
    holds one sample per frame byte. *)
Lemma with_block_run (bits_per_sample : Z) (wav_file : string) (frame : list byte) files out :
  supported bits_per_sample -> frame <> [] ->
  with_wave_open_w wav_file
    (setnchannels 1 ;;
     setsampwidth (bits_per_sample / 8) ;;
     setframerate 44100 ;;
     for_each frame (fun byte =>
       write_sample bits_per_sample (byte_to_Z byte))) (World files out)
  = (Ok tt,
     World (<[wav_file := Wave (container (written wav_file (bits_per_sample / 8)
               (concat (map (sample_bytes bits_per_sample) frame))))]> files) out).
Proof.
  intros Hs Hne.
  assert (Hsw : 1 <= bits_per_sample / 8 <= 4)
    by (destruct Hs as [->|[->| ->]]; split; discriminate).
  unfold with_wave_open_w. cbn [fs stdout].
  erewrite bind_ok by (apply setnchannels_run; lia).
  erewrite bind_ok by (apply setsampwidth_run; lia).
  erewrite bind_ok by (apply setframerate_run; lia).
  erewrite (for_each_writes wav_file (bits_per_sample / 8) _
              (sample_bytes bits_per_sample)).
  - unfold close, ensure_header_written, written. cbn [w_headerwritten app].
    rewrite insert_insert_eq. reflexivity.
  - intros b hw data files' out'. apply write_sample_run. exact Hs.
  - exact Hne.
Qed.

Lemma text_to_wav_run text_file wav_file bits_per_sample (x : list byte) w :
  supported bits_per_sample ->
  fs w !! text_file = Some (Plain x) ->
  text_to_wav text_file wav_file bits_per_sample w
  = (Ok tt,
     World (<[wav_file := Wave (encoded_pcm wav_file bits_per_sample x)]> (fs w))
           (stdout w ++ encoder_report text_file wav_file x
              (44 + length (frames (encoded_pcm wav_file bits_per_sample x))))).
Proof.
  intros Hs Hfile. destruct w as [files out]. cbn [fs stdout] in *.
  unfold text_to_wav.
  erewrite bind_ok
    by (unfold open_rb_read; cbn [fs]; rewrite Hfile; reflexivity).
  cbn zeta.
  erewrite bind_ok by (apply with_block_run; [exact Hs | discriminate]).
  unfold bind, print, os_path_getsize. cbn [fs stdout].
  rewrite lookup_insert_eq. cbn [fs stdout].
  unfold encoder_report, encoded_pcm.
  rewrite <- !app_assoc. reflexivity.
Qed.

(** A depth other than 8, 16 and 32 takes no branch of the loop body. *)
Lemma text_to_wav_run_narrow text_file wav_file bits_per_sample
    (x : list byte) w :
  ~ supported bits_per_sample ->
  1 <= bits_per_sample / 8 <= 4 ->
  fs w !! text_file = Some (Plain x) ->
  text_to_wav text_file wav_file bits_per_sample w
  = (Ok tt,
     World (<[wav_file := Wave (Pcm 1 (bits_per_sample / 8) 44100 0 [])]> (fs w))
           (stdout w ++ encoder_report text_file wav_file x 44)).
Proof.
  intros Hs Hsw Hfile. destruct w as [files out]. cbn [fs stdout] in *.
  assert (H8 : (bits_per_sample =? 8) = false)
    by (apply Z.eqb_neq; intros ->; apply Hs; left; reflexivity).
  assert (H16 : (bits_per_sample =? 16) = false)
    by (apply Z.eqb_neq; intros ->; apply Hs; right; left; reflexivity).
  assert (H32 : (bits_per_sample =? 32) = false)
    by (apply Z.eqb_neq; intros ->; apply Hs; right; right; reflexivity).
  unfold text_to_wav.
  erewrite bind_ok
    by (unfold open_rb_read; cbn [fs]; rewrite Hfile; reflexivity).
  cbn zeta. unfold write_sample. rewrite H8, H16, H32.
  erewrite bind_ok.
  2: { unfold with_wave_open_w. cbn [fs stdout].
       erewrite bind_ok by (apply setnchannels_run; lia).
       erewrite bind_ok by (apply setsampwidth_run; lia).
       erewrite bind_ok by (apply setframerate_run; lia).
       rewrite for_each_skip by reflexivity.
       unfold close, ensure_header_written.
       cbn [w_headerwritten w_nchannels w_sampwidth w_framerate w_data w_file].
       cbn [Z.eqb].
       replace (bits_per_sample / 8 =? 0) with false by lia.
       unfold flush, container.
       cbn [w_headerwritten w_nchannels w_sampwidth w_framerate w_data w_file
            fs stdout length].
       rewrite insert_insert_eq. reflexivity. }
  unfold bind, print, os_path_getsize. cbn [fs stdout].
  rewrite lookup_insert_eq. cbn [fs stdout frames length Nat.add].
  unfold encoder_report. change (Z.of_nat 0 / (1 * (bits_per_sample / 8))) with 0.
  rewrite <- !app_assoc. reflexivity.
Qed.

Lemma text_to_wav_run_wide text_file wav_file bits_per_sample
    (x : list byte) w :
  ~ 1 <= bits_per_sample / 8 <= 4 ->
  fs w !! text_file = Some (Plain x) ->
  text_to_wav text_file wav_file bits_per_sample w
  = (Raise (WaveError "sample width not specified"),
     World (<[wav_file := Plain []]> (fs w)) (stdout w)).
Proof.
  intros Hsw Hfile. destruct w as [files out]. cbn [fs stdout] in *.
  unfold text_to_wav.
  erewrite bind_ok
    by (unfold open_rb_read; cbn [fs]; rewrite Hfile; reflexivity).
  cbn zeta.
  erewrite bind_raise; [reflexivity|].
  unfold with_wave_open_w. cbn [fs stdout].
  erewrite bind_ok by (apply setnchannels_run; lia).
  erewrite bind_raise by (apply setsampwidth_bad; exact Hsw).
  reflexivity.
Qed.

(** ** Running the decoder *)

Lemma wav_to_text_run wav_file output_text_file (c : pcm) w :
  fs w !! wav_file = Some (Wave c) ->
  wav_to_text wav_file output_text_file w
  = match decoded_stream c with
    | Ok (Some decoded_bytes) =>
        after_header wav_file output_text_file decoded_bytes w
    | Ok None => (Raise (UnboundLocalError "decoded_bytes"), w)
    | Raise e => (Raise e, w)
    end.
Proof.
  intros Hfile. unfold wav_to_text, decoded_stream.
  unfold bind at 1. unfold bind at 1. unfold wave_open_r. rewrite Hfile.
  unfold lift_res.
  destruct (unpack_frames (getsampwidth c) (readframes c (getnframes c)))
    as [[decoded_bytes|]|e]; try reflexivity.
  cbn zeta. unfold after_header.
  destruct (bytes_contains decoded_bytes MAGIC); [|reflexivity].
  unfold try_except, bind, lift_res.
  destruct (b64decode _) as [original_data|e]; [|reflexivity].
  unfold open_wb_write, print, decoder_report. cbn [fs stdout].
  rewrite <- app_assoc. reflexivity.
Qed.

Lemma after_header_absent wav_file output_text_file decoded_bytes w :
  (forall j, ~ occurs_at MAGIC decoded_bytes j) ->
  after_header wav_file output_text_file decoded_bytes w
  = (Ok tt, World (fs w) (stdout w ++ [msg_not_encoded])).
Proof.
  intros Habs. unfold after_header.
  destruct (bytes_contains decoded_bytes MAGIC) eqn:E; [|reflexivity].
  apply bytes_contains_spec in E as [j Hj]. destruct (Habs j Hj).
Qed.

Lemma after_header_first wav_file output_text_file pre rest w :
  first_occurrence MAGIC (pre ++ MAGIC ++ rest) pre rest ->
  after_header wav_file output_text_file (pre ++ MAGIC ++ rest) w
  = match b64decode rest with
    | Ok original_data =>
        (Ok tt,
         World (<[output_text_file := Plain original_data]> (fs w))
               (stdout w
                ++ decoder_report wav_file output_text_file original_data))
    | Raise e =>
        (Ok tt, World (fs w) (stdout w ++ ["Error decoding data: " +:+ exn_str e]))
    end.
Proof.
  intros Hfirst. unfold after_header.
  replace (bytes_contains (pre ++ MAGIC ++ rest) MAGIC) with true.
  - rewrite payload_after_first by exact Hfirst. reflexivity.
  - symmetry. apply bytes_contains_spec. exists (length pre), pre, rest.
    split; reflexivity.
Qed.

(** ** What the decoder recovers from the encoder's container *)

Lemma concat_sample_bytes_length bits_per_sample (frame : list byte) :
  supported bits_per_sample ->
  length (concat (map (sample_bytes bits_per_sample) frame))
  = (length frame * Z.to_nat (bits_per_sample / 8))%nat.
Proof.
  intros Hs. induction frame as [|b frame IH]; [reflexivity|].
  cbn [map concat length]. rewrite length_app, IH, sample_bytes_length by exact Hs.
  lia.
Qed.

Lemma decoded_stream_encoded wav_file bits_per_sample (x : list byte) :
  supported bits_per_sample ->
  decoded_stream (encoded_pcm wav_file bits_per_sample x)
  = Ok (Some (MAGIC ++ b64encode x)).
Proof.
  intros Hs. unfold decoded_stream, encoded_pcm.
  set (frame := MAGIC ++ b64encode x).
  set (data := concat (map (sample_bytes bits_per_sample) frame)).
  assert (Hlen : length data = (length frame * Z.to_nat (bits_per_sample / 8))%nat)
    by (apply concat_sample_bytes_length; exact Hs).
  assert (Hframe : (0 < length frame)%nat)
    by (subst frame; rewrite length_app; cbn; lia).
  assert (Hsw : bits_per_sample / 8 = 1 \/ bits_per_sample / 8 = 2
                \/ bits_per_sample / 8 = 4)
    by (destruct Hs as [->|[->| ->]]; auto).
  assert (Hread : readframes (container (written wav_file (bits_per_sample / 8) data))
                    (getnframes (container (written wav_file (bits_per_sample / 8) data)))
                  = data).
  { unfold readframes, getnframes, container, written.
    cbn [nframes nchannels sampwidth frames w_data w_nchannels w_sampwidth].
    rewrite Hlen, Z.mul_1_l.
    assert (Hn : Z.of_nat (length frame * Z.to_nat (bits_per_sample / 8))
                 / (bits_per_sample / 8) = Z.of_nat (length frame)).
    { rewrite Nat2Z.inj_mul, Z2Nat.id by lia. apply Z.div_mul. lia. }
    rewrite Hn.
    replace (Z.of_nat (length frame) =? 0) with false by lia.
    replace (Z.of_nat (length frame) * (bits_per_sample / 8) <? 0)
      with false by lia.
    apply firstn_all2. rewrite Hlen. lia. }
  rewrite Hread. unfold getsampwidth, container, written.
  cbn [sampwidth w_sampwidth].
  assert (Hchunks : Forall (fun c => length c = Z.to_nat (bits_per_sample / 8))
                      (map (sample_bytes bits_per_sample) frame)).
  { apply Forall_forall. intros c Hc. apply list_elem_of_In in Hc.
    apply in_map_iff in Hc as (b & <- & _).
    apply sample_bytes_length. exact Hs. }
  assert (Hmap : map (decoded_byte (bits_per_sample / 8))
                   (map (sample_bytes bits_per_sample) frame) = frame).
  { rewrite map_map. rewrite <- (map_id frame) at 2. apply map_ext.
    intros b. apply decoded_sample_bytes. exact Hs. }
  rewrite <- (app_nil_r data). subst data.
  rewrite unpack_frames_chunks; [rewrite Hmap; reflexivity | | | ].
  - exact Hsw.
  - exact Hchunks.
  - cbn [length]. lia.
Qed.

(** * The claims *)

(** C1. Round trip: for every byte sequence [x] and every depth in
    {8, 16, 32}, encoding [x] into a WAV at that depth and decoding that WAV
    both end normally, and the decoder writes exactly [x]. *)
Theorem round_trip (x : list byte) (bits_per_sample : Z)
    (text_file wav_file output_text_file : string) (w : world) :
  supported bits_per_sample ->
  fs w !! text_file = Some (Plain x) ->
  exists w1 w2,
    text_to_wav text_file wav_file bits_per_sample w = (Ok tt, w1) /\
    wav_to_text wav_file output_text_file w1 = (Ok tt, w2) /\
    fs w2 !! output_text_file = Some (Plain x).
Proof.
  intros Hs Hfile.
  eexists. eexists. split; [apply text_to_wav_run; eassumption|].
  rewrite (wav_to_text_run wav_file output_text_file
             (encoded_pcm wav_file bits_per_sample x))
    by (cbn [fs]; apply lookup_insert_eq).
  rewrite decoded_stream_encoded by exact Hs.
  change (MAGIC ++ b64encode x) with ([] ++ MAGIC ++ b64encode x).
  rewrite (after_header_first wav_file output_text_file [] (b64encode x))
    by exact (first_occurrence_at_start MAGIC (b64encode x)).
  rewrite b64decode_b64encode.
  split; [reflexivity|]. cbn [fs]. apply lookup_insert_eq.
Qed.

Lemma round_trip_witness :
  exists w1 w2,
    text_to_wav "in.bin" "out.wav" 32 (disk_with "in.bin" [x00; xff; x80])
    = (Ok tt, w1) /\
    wav_to_text "out.wav" "back.bin" w1 = (Ok tt, w2) /\
    fs w2 !! "back.bin" = Some (Plain [x00; xff; x80]).
Proof.
  apply (round_trip [x00; xff; x80] 32 "in.bin" "out.wav" "back.bin"
           (disk_with "in.bin" [x00; xff; x80])).
  - right. right. reflexivity.
  - vm_compute. reflexivity.
Defined.

(** The arithmetic of the two scalings: packing the scaled value,
    unpacking it and undoing the scaling gives the byte value back. *)
Lemma packed_value_recovered (b : Z) :
  0 <= b <= 255 ->
  (let? packed := struct_pack_B b in
   let? value := struct_unpack_B packed in Ok (recover8 value)) = Ok b /\
  (let? packed := struct_pack_h ((b - 128) * 256) in
   let? value := struct_unpack_h packed in Ok (recover16 value)) = Ok b /\
  (let? packed := struct_pack_i ((b - 128) * 16777216) in
   let? value := struct_unpack_i packed in Ok (recover32 value)) = Ok b /\
  (b - 128) * 16777216 / 16777216 + 128 = b.
Proof.
  intros Hb.
  pose proof (struct_unpack_pack_B b ltac:(lia)) as HB.
  pose proof (struct_unpack_pack_h ((b - 128) * 256) ltac:(lia)) as Hh.
  pose proof (struct_unpack_pack_i ((b - 128) * 16777216) ltac:(lia)) as Hi.
  repeat split.
  - destruct (struct_pack_B b) as [p|]; [|discriminate].
    cbn [res_bind] in *. rewrite HB. reflexivity.
  - destruct (struct_pack_h _) as [p|]; [|discriminate].
    cbn [res_bind] in *. rewrite Hh. cbn [res_bind]. unfold recover16.
    rewrite Z.div_mul by lia. f_equal. lia.
  - destruct (struct_pack_i _) as [p|]; [|discriminate].
    cbn [res_bind] in *. rewrite Hi. cbn [res_bind]. unfold recover32.
    rewrite Z.div_mul by lia. f_equal. lia.
  - rewrite Z.div_mul by lia. lia.
Qed.

(** The data of one sample written by the encoder is read back as the
    frame byte. *)
Lemma unpack_sample_bytes (bits_per_sample : Z) (b : byte) :
  supported bits_per_sample ->
  unpack_frames (bits_per_sample / 8) (sample_bytes bits_per_sample b)
  = Ok (Some [b]).
Proof.
  intros Hs.
  assert (Hsw : bits_per_sample / 8 = 1 \/ bits_per_sample / 8 = 2
                \/ bits_per_sample / 8 = 4)
    by (destruct Hs as [->|[->| ->]]; auto).
  pose proof (unpack_frames_chunks (bits_per_sample / 8)
                [sample_bytes bits_per_sample b] [] Hsw) as H.
  cbn [concat map] in H. rewrite !app_nil_r in H.
  rewrite H.
  - rewrite decoded_sample_bytes by exact Hs. reflexivity.
  - constructor; [apply sample_bytes_length; exact Hs | constructor].
  - destruct Hsw as [->|[->| ->]]; cbn; lia.
Qed.

(** C2. For every byte value [b] in 0..255 and each depth in {8, 16, 32},
    one pass of the encoder's loop body on [b] writes one sample, and the
    decoder's unpacking of the container that holds that sample, with its
    inverse scaling, recovers exactly [b]: the scaling is invertible on
    every byte value.  In particular [(b - 128) * 16777216] floor-divided
    by [16777216], plus [128], is [b]. *)
Theorem scaling_inverts (b bits_per_sample : Z) (path : string)
    (files : gmap string file) (console : list string) :
  0 <= b <= 255 ->
  supported bits_per_sample ->
  exists packed,
    write_sample bits_per_sample b
      (WaveWrite path 1 (bits_per_sample / 8) 44100 false [],
       World files console)
    = (Ok tt,
       (WaveWrite path 1 (bits_per_sample / 8) 44100 true packed,
        World (<[path := Wave (Pcm 1 (bits_per_sample / 8) 44100 1 packed)]>
                 files) console)) /\
    unpack_frames (getsampwidth (Pcm 1 (bits_per_sample / 8) 44100 1 packed))
      (readframes (Pcm 1 (bits_per_sample / 8) 44100 1 packed)
         (getnframes (Pcm 1 (bits_per_sample / 8) 44100 1 packed)))
    = Ok (Some [byte_of_Z b]) /\
    byte_to_Z (byte_of_Z b) = b /\
    (b - 128) * 16777216 / 16777216 + 128 = b.
Proof.
  intros Hb Hs.
  assert (Hsw : 1 <= bits_per_sample / 8)
    by (destruct Hs as [->|[->| ->]]; discriminate).
  pose proof (byte_to_of_Z b ltac:(lia)) as Hbyte.
  pose proof (sample_bytes_length bits_per_sample (byte_of_Z b) Hs) as Hlen.
  exists (sample_bytes bits_per_sample (byte_of_Z b)).
  split; [|split; [|split]].
  - rewrite <- Hbyte at 1.
    rewrite (write_sample_run bits_per_sample (byte_of_Z b) path false []
               files console Hs).
    unfold written, container.
    cbn [app w_nchannels w_sampwidth w_framerate w_data].
    rewrite Hlen, Z2Nat.id, Z.mul_1_l, Z.div_same by lia. reflexivity.
  - unfold getsampwidth, getnframes, readframes.
    cbn [sampwidth nframes nchannels frames Z.eqb].
    rewrite !Z.mul_1_l.
    replace (bits_per_sample / 8 <? 0) with false by lia.
    rewrite firstn_all2 by lia.
    apply unpack_sample_bytes. exact Hs.
  - exact Hbyte.
  - rewrite Z.div_mul by lia. lia.
Qed.

Lemma scaling_inverts_witness :
  exists packed,
    write_sample 32 255
      (WaveWrite "out.wav" 1 (32 / 8) 44100 false [], World ∅ [])
    = (Ok tt,
       (WaveWrite "out.wav" 1 (32 / 8) 44100 true packed,
        World (<["out.wav" := Wave (Pcm 1 (32 / 8) 44100 1 packed)]> ∅) [])) /\
    unpack_frames (getsampwidth (Pcm 1 (32 / 8) 44100 1 packed))
      (readframes (Pcm 1 (32 / 8) 44100 1 packed)
         (getnframes (Pcm 1 (32 / 8) 44100 1 packed)))
    = Ok (Some [byte_of_Z 255]) /\
    byte_to_Z (byte_of_Z 255) = 255 /\
    (255 - 128) * 16777216 / 16777216 + 128 = 255.
Proof.
  apply (scaling_inverts 255 32 "out.wav" ∅ []).
  - lia.
  - right. right. reflexivity.
Defined.

(** C3, as stated, fails: at depth 12 the encoder ends normally, prints its
    success report, and leaves a container with sample width 1 and no
    frames at the output path. *)
Lemma depth_12_writes_an_empty_container :
  text_to_wav "in.txt" "out.wav" 12 (disk_with "in.txt" (bs "Hello"))
  = (Ok tt,
     World (<["out.wav" := Wave (Pcm 1 1 44100 0 [])]>
              (fs (disk_with "in.txt" (bs "Hello"))))
           ["Successfully converted in.txt to out.wav";
            "Original file size: 5 bytes";
            "Encoded WAV file size: 44 bytes"]).
Proof. vm_compute. reflexivity. Qed.

(** C3, amended.  A depth outside {8, 16, 32} is not validated: no branch
    of the sample loop applies, so no sample is written, and the output
    file is opened all the same.  When [depth // 8] is a sample width the
    WAV writer accepts (1..4), the encoder ends normally and the output
    path holds a container of that width with no frames; otherwise the
    writer's own error about the sample width propagates and the output
    path holds an empty file. *)
Theorem unsupported_depth_not_rejected (x : list byte) (bits_per_sample : Z)
    (text_file wav_file : string) (w : world) :
  ~ supported bits_per_sample ->
  fs w !! text_file = Some (Plain x) ->
  text_to_wav text_file wav_file bits_per_sample w
  = if (1 <=? bits_per_sample / 8) && (bits_per_sample / 8 <=? 4) then
      (Ok tt,
       World (<[wav_file := Wave (Pcm 1 (bits_per_sample / 8) 44100 0 [])]>
                (fs w))
             (stdout w ++ encoder_report text_file wav_file x 44))
    else
      (Raise (WaveError "sample width not specified"),
       World (<[wav_file := Plain []]> (fs w)) (stdout w)).
Proof.
  intros Hs Hfile.
  destruct ((1 <=? bits_per_sample / 8) && (bits_per_sample / 8 <=? 4)) eqn:E.
  - apply text_to_wav_run_narrow; [exact Hs | lia | exact Hfile].
  - apply (text_to_wav_run_wide text_file wav_file bits_per_sample x);
      [lia | exact Hfile].
Qed.

Lemma unsupported_depth_not_rejected_witness :
  text_to_wav "in.txt" "out.wav" 24 (disk_with "in.txt" (bs "Hello"))
  = (Ok tt,
     World (<["out.wav" := Wave (Pcm 1 3 44100 0 [])]>
              (fs (disk_with "in.txt" (bs "Hello"))))
           (stdout (disk_with "in.txt" (bs "Hello"))
            ++ encoder_report "in.txt" "out.wav" (bs "Hello") 44)).
Proof.
  apply (unsupported_depth_not_rejected (bs "Hello") 24 "in.txt" "out.wav"
           (disk_with "in.txt" (bs "Hello"))).
  - intros [H|[H|H]]; discriminate H.
  - vm_compute. reflexivity.
Defined.

(** For the three sample widths the program knows, decoding ends without
    an exception, whatever the data. *)
Lemma known_width_never_raises (c : pcm) (wav_file output_text_file : string)
    (w : world) :
  getsampwidth c = 1 \/ getsampwidth c = 2 \/ getsampwidth c = 4 ->
  fs w !! wav_file = Some (Wave c) ->
  exists w', wav_to_text wav_file output_text_file w = (Ok tt, w').
Proof.
  intros Hsw Hfile.
  rewrite (wav_to_text_run wav_file output_text_file c) by exact Hfile.
  destruct (unpack_frames_total (getsampwidth c)
              (readframes c (getnframes c)) Hsw) as [decoded_bytes E].
  unfold decoded_stream. rewrite E. unfold after_header.
  destruct (bytes_contains decoded_bytes MAGIC); [|eexists; reflexivity].
  destruct (b64decode _); eexists; reflexivity.
Qed.

(** For any other sample width, [decoded_bytes] is unbound at the header
    test. *)
Lemma unknown_width_raises (c : pcm) (wav_file output_text_file : string)
    (w : world) :
  getsampwidth c <> 1 -> getsampwidth c <> 2 -> getsampwidth c <> 4 ->
  fs w !! wav_file = Some (Wave c) ->
  wav_to_text wav_file output_text_file w
  = (Raise (UnboundLocalError "decoded_bytes"), w).
Proof.
  intros H1 H2 H4 Hfile.
  rewrite (wav_to_text_run wav_file output_text_file c) by exact Hfile.
  unfold decoded_stream. rewrite unpack_frames_other by assumption.
  reflexivity.
Qed.

(** C4: the code departs from the claim.  A readable 24-bit container
    (sample width 3) takes no branch of the unpacking code, so
    [decoded_bytes] is never assigned and the header test raises
    [UnboundLocalError] instead of reporting that the file is not
    encoded. *)
Theorem sample_width_3_crashes :
  wav_to_text "in.wav" "out.txt"
    (disk_with_wav "in.wav" (Pcm 1 3 44100 1 [x00; x00; x00]))
  = (Raise (UnboundLocalError "decoded_bytes"),
     disk_with_wav "in.wav" (Pcm 1 3 44100 1 [x00; x00; x00])).
Proof. vm_compute. reflexivity. Qed.

(** C5, as stated, fails: the sample [-1] of a 16-bit container is
    recovered as byte 127, where the truncating quotient of the
    specification gives 128. *)
Lemma truncating_division_differs :
  struct_unpack_h [xff; xff] = Ok (-1) /\
  unpack_frames 2 [xff; xff] = Ok (Some [byte_of_Z 127]) /\
  spec_recover 256 (-1) = 128 /\
  unpack_frames 2 [xff; xff] <> Ok (Some [byte_of_Z (spec_recover 256 (-1))]).
Proof.
  repeat split; try (vm_compute; reflexivity).
  vm_compute. discriminate.
Qed.

Lemma recovered_samples (unpack : list byte -> res Z) (pack : Z -> res (list byte))
    (recover : Z -> Z) :
  (forall v packed, pack v = Ok packed -> unpack packed = Ok v) ->
  forall samples chunks,
    Forall2 (fun v packed => pack v = Ok packed) samples chunks ->
    map (fun c => byte_of_Z (recover (sample_of unpack c))) chunks
    = map (fun v => byte_of_Z (recover v)) samples.
Proof.
  intros Hup samples chunks H.
  induction H as [|v packed samples chunks Hv H IH]; [reflexivity|].
  cbn [map]. rewrite IH. unfold sample_of. rewrite (Hup v packed Hv).
  reflexivity.
Qed.

Lemma packed_length_h v packed :
  struct_pack_h v = Ok packed -> length packed = 2%nat.
Proof.
  unfold struct_pack_h. destruct (_ && _); [|discriminate].
  intros H. injection H as <-. reflexivity.
Qed.

Lemma packed_length_i v packed :
  struct_pack_i v = Ok packed -> length packed = 4%nat.
Proof.
  unfold struct_pack_i. destruct (_ && _); [|discriminate].
  intros H. injection H as <-. reflexivity.
Qed.

Lemma packed_range_h v packed :
  struct_pack_h v = Ok packed -> -32768 <= v <= 32767.
Proof.
  unfold struct_pack_h.
  destruct ((-32768 <=? v) && (v <=? 32767)) eqn:E; [|discriminate].
  intros _. lia.
Qed.

Lemma packed_range_i v packed :
  struct_pack_i v = Ok packed -> -2147483648 <= v <= 2147483647.
Proof.
  unfold struct_pack_i.
  destruct ((-2147483648 <=? v) && (v <=? 2147483647)) eqn:E; [|discriminate].
  intros _. lia.
Qed.

Lemma unpack_packed_h v packed :
  struct_pack_h v = Ok packed -> struct_unpack_h packed = Ok v.
Proof.
  intros H. pose proof (struct_unpack_pack_h v (packed_range_h v packed H)) as R.
  rewrite H in R. exact R.
Qed.

Lemma unpack_packed_i v packed :
  struct_pack_i v = Ok packed -> struct_unpack_i packed = Ok v.
Proof.
  intros H. pose proof (struct_unpack_pack_i v (packed_range_i v packed H)) as R.
  rewrite H in R. exact R.
Qed.

Lemma Forall2_length_each {A B} (P : A -> B -> Prop) (Q : B -> Prop) xs ys :
  (forall x y, P x y -> Q y) -> Forall2 P xs ys -> Forall Q ys.
Proof.
  intros HPQ H. induction H; constructor; eauto.
Qed.

(** C5, amended.  The decoder divides with Python's [//], which rounds
    toward minus infinity: for every list of signed 16-bit samples held
    by a container of sample width 2, the bytes recovered are
    [clamp(0, 255, floor(sample / 256) + 128)], and likewise with
    [16777216] for signed 32-bit samples at sample width 4.  The floor
    quotient [q] of a sample is the integer with
    [divisor * q <= sample < divisor * (q + 1)]; it is the truncated
    quotient only when the sample is not negative or is a multiple of the
    divisor. *)
Theorem recovers_floor_quotient (samples16 samples32 : list Z)
    (chunks16 chunks32 : list (list byte)) :
  Forall2 (fun v packed => struct_pack_h v = Ok packed) samples16 chunks16 ->
  Forall2 (fun v packed => struct_pack_i v = Ok packed) samples32 chunks32 ->
  unpack_frames 2 (concat chunks16)
  = Ok (Some (map (fun v => byte_of_Z (Z.min 255 (Z.max 0 (v / 256 + 128))))
                  samples16)) /\
  unpack_frames 4 (concat chunks32)
  = Ok (Some (map (fun v => byte_of_Z
                              (Z.min 255 (Z.max 0 (v / 16777216 + 128))))
                  samples32)) /\
  Forall (fun v =>
            256 * (v / 256) <= v < 256 * (v / 256 + 1) /\
            (v / 256 = Z.quot v 256 <-> 0 <= v \/ v mod 256 = 0)) samples16 /\
  Forall (fun v =>
            16777216 * (v / 16777216) <= v < 16777216 * (v / 16777216 + 1) /\
            (v / 16777216 = Z.quot v 16777216
             <-> 0 <= v \/ v mod 16777216 = 0)) samples32.
Proof.
  intros H16 H32. split; [|split; [|split]].
  - rewrite <- (app_nil_r (concat chunks16)).
    rewrite (unpack_frames_2 _ chunks16 []); [| reflexivity | | cbn; lia].
    + do 2 f_equal. unfold decoded_byte. cbn [Z.eqb Pos.eqb].
      apply (recovered_samples struct_unpack_h struct_pack_h recover16);
        [apply unpack_packed_h | exact H16].
    + eapply Forall2_length_each; [|exact H16]. apply packed_length_h.
  - rewrite <- (app_nil_r (concat chunks32)).
    rewrite (unpack_frames_4 _ chunks32 []); [| reflexivity | | cbn; lia].
    + do 2 f_equal. unfold decoded_byte. cbn [Z.eqb Pos.eqb].
      apply (recovered_samples struct_unpack_i struct_pack_i recover32);
        [apply unpack_packed_i | exact H32].
    + eapply Forall2_length_each; [|exact H32]. apply packed_length_i.
  - apply Forall_forall. intros v _.
    repeat split; try (Z.to_euclidean_division_equations; lia).
  - apply Forall_forall. intros v _.
    repeat split; try (Z.to_euclidean_division_equations; lia).
Qed.

Lemma recovers_floor_quotient_witness :
  unpack_frames 2 (concat [[xff; xff]; [x00; x80]; [xff; x7f]])
  = Ok (Some (map (fun v => byte_of_Z (Z.min 255 (Z.max 0 (v / 256 + 128))))
                  [-1; -32768; 32767])) /\
  unpack_frames 4 (concat [[xff; xff; xff; xff]; [x01; x00; x00; x80]])
  = Ok (Some (map (fun v => byte_of_Z
                              (Z.min 255 (Z.max 0 (v / 16777216 + 128))))
                  [-1; -2147483647])) /\
  Forall (fun v =>
            256 * (v / 256) <= v < 256 * (v / 256 + 1) /\
            (v / 256 = Z.quot v 256 <-> 0 <= v \/ v mod 256 = 0))
         [-1; -32768; 32767] /\
  Forall (fun v =>
            16777216 * (v / 16777216) <= v < 16777216 * (v / 16777216 + 1) /\
            (v / 16777216 = Z.quot v 16777216
             <-> 0 <= v \/ v mod 16777216 = 0)) [-1; -2147483647].
Proof.
  apply (recovers_floor_quotient [-1; -32768; 32767] [-1; -2147483647]
           [[xff; xff]; [x00; x80]; [xff; x7f]]
           [[xff; xff; xff; xff]; [x01; x00; x00; x80]]).
  - repeat constructor.
  - repeat constructor.
Defined.

Lemma in_alphabet_b2a (six : Z) : 0 <= six < 64 -> in_alphabet (b2a six) = true.
Proof.
  intros H. unfold in_alphabet. destruct (table_a2b_b2a six H) as [-> _]. lia.
Qed.

(** What the encoder produces is valid in that sense. *)
Lemma b64encode_valid (x : list byte) : valid_base64 (b64encode x) = true.
Proof.
  induction x as [|a|a b|a b c rest IH] using list_ind3.
  - reflexivity.
  - rewrite b64encode_1. cbn [valid_base64].
    rewrite !in_alphabet_b2a
      by first [apply is_six_range, six0_ok | apply is_six_range, six1_last_ok].
    reflexivity.
  - rewrite b64encode_2. cbn [valid_base64].
    rewrite !in_alphabet_b2a
      by first [apply is_six_range, six0_ok | apply is_six_range, six1_ok
               | apply is_six_range, six2_last_ok].
    reflexivity.
  - rewrite b64encode_3. cbn [valid_base64].
    rewrite !in_alphabet_b2a
      by first [apply is_six_range, six0_ok | apply is_six_range, six1_ok
               | apply is_six_range, six2_ok | apply is_six_range, six3_ok].
    rewrite IH. cbn. destruct (b64encode rest); reflexivity.
Qed.

Lemma occurs_at_drop (sub s : list byte) (j : nat) :
  occurs_at sub s j -> is_prefix sub (drop j s) = true.
Proof.
  intros (pre & post & -> & <-). rewrite drop_app_length.
  apply is_prefix_spec. exists post. reflexivity.
Qed.

Lemma absent_of_contains_false (s sub : list byte) :
  bytes_contains s sub = false -> forall j, ~ occurs_at sub s j.
Proof.
  intros H j Hj.
  assert (E : bytes_contains s sub = true)
    by (apply bytes_contains_spec; exists j; exact Hj).
  congruence.
Qed.

(** C6, as stated, fails: after the header, [SGVs#] is not valid base64,
    yet the decoder drops the [#], decodes the rest and writes [Hel]. *)
Lemma invalid_base64_is_decoded :
  valid_base64 (bs "SGVs#") = false /\
  decoded_stream (Pcm 1 1 44100 18 (bs "ENCODED_TEXT:SGVs#"))
  = Ok (Some (MAGIC ++ bs "SGVs#")) /\
  wav_to_text "in.wav" "out.txt"
    (disk_with_wav "in.wav" (Pcm 1 1 44100 18 (bs "ENCODED_TEXT:SGVs#")))
  = (Ok tt,
     World (<["out.txt" := Plain (bs "Hel")]>
              (fs (disk_with_wav "in.wav"
                     (Pcm 1 1 44100 18 (bs "ENCODED_TEXT:SGVs#")))))
           ["Successfully converted in.wav to out.txt";
            "Recovered file size: 3 bytes"]).
Proof. repeat split; vm_compute; reflexivity. Qed.

(** C6, amended.  The decoder calls [b64decode] in its default, lenient
    mode, which drops every byte outside the base64 alphabet before it
    looks at the padding.  For every decoder input in which MAGIC is found
    and that decoding of the bytes after its first occurrence raises (as
    it does when trailing characters of the base64 text are cut off so
    that the last quad is left incomplete), the decoder reports the error
    and writes no output file. *)
Theorem decode_failure_is_reported (c : pcm) (wav_file output_text_file : string)
    (w : world) (pre rest : list byte) (e : exn) :
  fs w !! wav_file = Some (Wave c) ->
  decoded_stream c = Ok (Some (pre ++ MAGIC ++ rest)) ->
  first_occurrence MAGIC (pre ++ MAGIC ++ rest) pre rest ->
  b64decode rest = Raise e ->
  wav_to_text wav_file output_text_file w
  = (Ok tt, World (fs w) (stdout w ++ ["Error decoding data: " +:+ exn_str e])).
Proof.
  intros Hfile Hstream Hfirst Hdec.
  rewrite (wav_to_text_run wav_file output_text_file c) by exact Hfile.
  rewrite Hstream, after_header_first by exact Hfirst.
  rewrite Hdec. reflexivity.
Qed.

Lemma decode_failure_is_reported_witness :
  wav_to_text "in.wav" "out.txt"
    (disk_with_wav "in.wav" (Pcm 1 1 44100 20 (bs "ENCODED_TEXT:SGVsbG8")))
  = (Ok tt,
     World (fs (disk_with_wav "in.wav"
                  (Pcm 1 1 44100 20 (bs "ENCODED_TEXT:SGVsbG8"))))
           (stdout (disk_with_wav "in.wav"
                      (Pcm 1 1 44100 20 (bs "ENCODED_TEXT:SGVsbG8")))
            ++ ["Error decoding data: "
                +:+ exn_str (BinasciiError "Incorrect padding")])).
Proof.
  apply (decode_failure_is_reported
           (Pcm 1 1 44100 20 (bs "ENCODED_TEXT:SGVsbG8")) "in.wav" "out.txt"
           (disk_with_wav "in.wav" (Pcm 1 1 44100 20 (bs "ENCODED_TEXT:SGVsbG8")))
           [] (bs "SGVsbG8") (BinasciiError "Incorrect padding")).
  - vm_compute. reflexivity.
  - vm_compute. reflexivity.
  - exact (first_occurrence_at_start MAGIC (bs "SGVsbG8")).
  - vm_compute. reflexivity.
Defined.

(** C7. For every decoder input whose recovered byte stream does not
    contain MAGIC, the decoder reports that the file holds no encoded
    data and leaves every file, the output path included, as it was. *)
Theorem no_header_not_encoded (c : pcm) (wav_file output_text_file : string)
    (w : world) (decoded_bytes : list byte) :
  fs w !! wav_file = Some (Wave c) ->
  decoded_stream c = Ok (Some decoded_bytes) ->
  (forall j, ~ occurs_at MAGIC decoded_bytes j) ->
  wav_to_text wav_file output_text_file w
  = (Ok tt, World (fs w) (stdout w ++ [msg_not_encoded])).
Proof.
  intros Hfile Hstream Habs.
  rewrite (wav_to_text_run wav_file output_text_file c) by exact Hfile.
  rewrite Hstream. apply after_header_absent. exact Habs.
Qed.

Lemma no_header_not_encoded_witness :
  wav_to_text "in.wav" "out.txt"
    (disk_with_wav "in.wav" (Pcm 2 2 8000 1 [x00; x00; xff; x7f]))
  = (Ok tt,
     World (fs (disk_with_wav "in.wav" (Pcm 2 2 8000 1 [x00; x00; xff; x7f])))
           (stdout (disk_with_wav "in.wav"
                      (Pcm 2 2 8000 1 [x00; x00; xff; x7f]))
            ++ [msg_not_encoded])).
Proof.
  apply (no_header_not_encoded (Pcm 2 2 8000 1 [x00; x00; xff; x7f])
           "in.wav" "out.txt"
           (disk_with_wav "in.wav" (Pcm 2 2 8000 1 [x00; x00; xff; x7f]))
           [x80; xff]).
  - vm_compute. reflexivity.
  - vm_compute. reflexivity.
  - apply absent_of_contains_false. vm_compute. reflexivity.
Defined.

(** C8. For every recovered byte stream in which MAGIC occurs more than
    once, the bytes right after its first occurrence are what the decoder
    hands to [b64decode], and the outcome is that of decoding them. *)
Theorem first_header_wins (c : pcm) (wav_file output_text_file : string)
    (w : world) (pre rest : list byte) (j : nat) :
  fs w !! wav_file = Some (Wave c) ->
  decoded_stream c = Ok (Some (pre ++ MAGIC ++ rest)) ->
  first_occurrence MAGIC (pre ++ MAGIC ++ rest) pre rest ->
  (length pre < j)%nat ->
  occurs_at MAGIC (pre ++ MAGIC ++ rest) j ->
  wav_to_text wav_file output_text_file w
  = match b64decode rest with
    | Ok original_data =>
        (Ok tt,
         World (<[output_text_file := Plain original_data]> (fs w))
               (stdout w
                ++ decoder_report wav_file output_text_file original_data))
    | Raise e =>
        (Ok tt,
         World (fs w) (stdout w ++ ["Error decoding data: " +:+ exn_str e]))
    end.
Proof.
  intros Hfile Hstream Hfirst _ _.
  rewrite (wav_to_text_run wav_file output_text_file c) by exact Hfile.
  rewrite Hstream. apply after_header_first. exact Hfirst.
Qed.

Lemma first_header_wins_witness :
  wav_to_text "in.wav" "out.txt"
    (disk_with_wav "in.wav"
       (Pcm 1 1 44100 33 (bs "xxENCODED_TEXT:SGVsENCODED_TEXT:Q")))
  = match b64decode (bs "SGVsENCODED_TEXT:Q") with
    | Ok original_data =>
        (Ok tt,
         World (<["out.txt" := Plain original_data]>
                  (fs (disk_with_wav "in.wav"
                         (Pcm 1 1 44100 33
                            (bs "xxENCODED_TEXT:SGVsENCODED_TEXT:Q")))))
               (stdout (disk_with_wav "in.wav"
                          (Pcm 1 1 44100 33
                             (bs "xxENCODED_TEXT:SGVsENCODED_TEXT:Q")))
                ++ decoder_report "in.wav" "out.txt" original_data))
    | Raise e =>
        (Ok tt,
         World (fs (disk_with_wav "in.wav"
                      (Pcm 1 1 44100 33
                         (bs "xxENCODED_TEXT:SGVsENCODED_TEXT:Q"))))
               (stdout (disk_with_wav "in.wav"
                          (Pcm 1 1 44100 33
                             (bs "xxENCODED_TEXT:SGVsENCODED_TEXT:Q")))
                ++ ["Error decoding data: " +:+ exn_str e]))
    end.
Proof.
  apply (first_header_wins
           (Pcm 1 1 44100 33 (bs "xxENCODED_TEXT:SGVsENCODED_TEXT:Q"))
           "in.wav" "out.txt"
           (disk_with_wav "in.wav"
              (Pcm 1 1 44100 33 (bs "xxENCODED_TEXT:SGVsENCODED_TEXT:Q")))
           (bs "xx") (bs "SGVsENCODED_TEXT:Q") 19).
  - vm_compute. reflexivity.
  - vm_compute. reflexivity.
  - split; [reflexivity|]. intros j Hj Hocc. apply occurs_at_drop in Hocc.
    destruct j as [|[|j]]; [discriminate Hocc | discriminate Hocc |].
    cbn in Hj. lia.
  - cbn. lia.
  - exists (bs "xxENCODED_TEXT:SGVs"), (bs "Q"). split; reflexivity.
Defined.

(** C9. Encoding the five bytes of [Hello] at depth 16 leaves a container
    whose recovered byte stream is the frame [ENCODED_TEXT:SGVsbG8=], MAGIC
    followed by the base64 text of the payload, and decoding it writes
    [Hello]. *)
Theorem hello_at_depth_16 (text_file wav_file output_text_file : string)
    (w : world) :
  fs w !! text_file = Some (Plain (bs "Hello")) ->
  exists c w1 w2,
    text_to_wav text_file wav_file 16 w = (Ok tt, w1) /\
    fs w1 !! wav_file = Some (Wave c) /\
    decoded_stream c = Ok (Some (bs "ENCODED_TEXT:SGVsbG8=")) /\
    bs "ENCODED_TEXT:SGVsbG8=" = MAGIC ++ bs "SGVsbG8=" /\
    b64encode (bs "Hello") = bs "SGVsbG8=" /\
    wav_to_text wav_file output_text_file w1 = (Ok tt, w2) /\
    fs w2 !! output_text_file = Some (Plain (bs "Hello")).
Proof.
  intros Hfile.
  assert (Hs : supported 16) by (right; left; reflexivity).
  exists (encoded_pcm wav_file 16 (bs "Hello")).
  eexists. eexists.
  split; [apply text_to_wav_run; [exact Hs | exact Hfile]|].
  split; [cbn [fs]; apply lookup_insert_eq|].
  split; [rewrite decoded_stream_encoded by exact Hs; reflexivity|].
  split; [reflexivity|]. split; [reflexivity|].
  rewrite (wav_to_text_run wav_file output_text_file
             (encoded_pcm wav_file 16 (bs "Hello")))
    by (cbn [fs]; apply lookup_insert_eq).
  rewrite decoded_stream_encoded by exact Hs.
  rewrite (after_header_first wav_file output_text_file []
             (b64encode (bs "Hello")))
    by exact (first_occurrence_at_start MAGIC (b64encode (bs "Hello"))).
  rewrite b64decode_b64encode.
  split; [reflexivity|]. cbn [fs]. apply lookup_insert_eq.
Qed.

Lemma hello_at_depth_16_witness :
  exists c w1 w2,
    text_to_wav "hello.txt" "hello.wav" 16 (disk_with "hello.txt" (bs "Hello"))
    = (Ok tt, w1) /\
    fs w1 !! "hello.wav" = Some (Wave c) /\
    decoded_stream c = Ok (Some (bs "ENCODED_TEXT:SGVsbG8=")) /\
    bs "ENCODED_TEXT:SGVsbG8=" = MAGIC ++ bs "SGVsbG8=" /\
    b64encode (bs "Hello") = bs "SGVsbG8=" /\
    wav_to_text "hello.wav" "back.txt" w1 = (Ok tt, w2) /\
    fs w2 !! "back.txt" = Some (Plain (bs "Hello")).
Proof.
  apply (hello_at_depth_16 "hello.txt" "hello.wav" "back.txt"
           (disk_with "hello.txt" (bs "Hello"))).
  vm_compute. reflexivity.
Defined.

(** The same, evaluated: the 42 bytes of the data chunk. *)
Example hello_container :
  fs (snd (text_to_wav "hello.txt" "hello.wav" 16
             (disk_with "hello.txt" (bs "Hello")))) !! "hello.wav"
  = Some (Wave (Pcm 1 2 44100 21
      [x00; xc5; x00; xce; x00; xc3; x00; xcf; x00; xc4; x00; xc5; x00; xc4;
       x00; xdf; x00; xd4; x00; xc5; x00; xd8; x00; xd4; x00; xba; x00; xd3;
       x00; xc7; x00; xd6; x00; xf3; x00; xe2; x00; xc7; x00; xb8; x00; xbd])).
Proof. vm_compute. reflexivity. Qed.

(** What [wav_to_text] does depends on the container only through its
    sample width and the bytes [readframes] returns. *)
Lemma wav_to_text_reads (c : pcm) (wav_file output_text_file : string)
    (files : gmap string file) (console : list string) :
  exists (r : res unit) (written : option (list byte)) (lines : list string),
    (forall c', getsampwidth c' = getsampwidth c ->
                readframes c' (getnframes c') = readframes c (getnframes c) ->
       wav_to_text wav_file output_text_file
         (World (<[wav_file := Wave c']> files) console)
       = (r,
          World (match written with
                 | Some original_data =>
                     <[output_text_file := Plain original_data]>
                       (<[wav_file := Wave c']> files)
                 | None => <[wav_file := Wave c']> files
                 end)
                (console ++ lines))).
Proof.
  destruct (decoded_stream c) as [[decoded_bytes|]|e] eqn:E.
  - unfold after_header.
    destruct (bytes_contains decoded_bytes MAGIC) eqn:Hin.
    + destruct (b64decode
                  (slice_from decoded_bytes
                     (Z.to_nat (bytes_find decoded_bytes MAGIC
                                + Z.of_nat (length MAGIC))))) as [d|e] eqn:Hd.
      * exists (Ok tt), (Some d), (decoder_report wav_file output_text_file d).
        intros c' Hsw Hraw.
        rewrite (wav_to_text_run wav_file output_text_file c')
          by (cbn [fs]; apply lookup_insert_eq).
        unfold decoded_stream in *. rewrite Hsw, Hraw, E.
        unfold after_header. rewrite Hin, Hd. reflexivity.
      * exists (Ok tt), None, ["Error decoding data: " +:+ exn_str e].
        intros c' Hsw Hraw.
        rewrite (wav_to_text_run wav_file output_text_file c')
          by (cbn [fs]; apply lookup_insert_eq).
        unfold decoded_stream in *. rewrite Hsw, Hraw, E.
        unfold after_header. rewrite Hin, Hd. reflexivity.
    + exists (Ok tt), None, [msg_not_encoded].
      intros c' Hsw Hraw.
      rewrite (wav_to_text_run wav_file output_text_file c')
        by (cbn [fs]; apply lookup_insert_eq).
      unfold decoded_stream in *. rewrite Hsw, Hraw, E.
      unfold after_header. rewrite Hin. reflexivity.
  - exists (Raise (UnboundLocalError "decoded_bytes")), None, [].
    intros c' Hsw Hraw.
    rewrite (wav_to_text_run wav_file output_text_file c')
      by (cbn [fs]; apply lookup_insert_eq).
    unfold decoded_stream in *. rewrite Hsw, Hraw, E.
    rewrite app_nil_r. reflexivity.
  - exists (Raise e), None, [].
    intros c' Hsw Hraw.
    rewrite (wav_to_text_run wav_file output_text_file c')
      by (cbn [fs]; apply lookup_insert_eq).
    unfold decoded_stream in *. rewrite Hsw, Hraw, E.
    rewrite app_nil_r. reflexivity.
Qed.




(** A stereo container holding the samples of [ENCO] is read as four
    bytes. *)
Example stereo_is_read_sample_by_sample :
  decoded_stream (Pcm 2 2 44100 2 [x00; xc5; x00; xce; x00; xc3; x00; xcf])
  = Ok (Some (bs "ENCO")).
Proof. vm_compute. reflexivity. Qed.

(** * Further properties of the program *)

(** ** Files the two functions touch *)

Lemma supported_dec (bits_per_sample : Z) :
  {supported bits_per_sample} + {~ supported bits_per_sample}.
Proof.
  unfold supported.
  destruct (Z.eq_dec bits_per_sample 8); [left; auto|].
  destruct (Z.eq_dec bits_per_sample 16); [left; auto|].
  destruct (Z.eq_dec bits_per_sample 32); [left; auto|].
  right. intros [H|[H|H]]; contradiction.
Qed.

(** X1. When the input file does not exist the encoder raises
    [FileNotFoundError] before it opens the output: no file is created or
    truncated and nothing is printed. *)
Theorem encoder_missing_input (text_file wav_file : string)
    (bits_per_sample : Z) (w : world) :
  fs w !! text_file = None ->
  text_to_wav text_file wav_file bits_per_sample w
  = (Raise (FileNotFoundError text_file), w).
Proof.
  intros H. unfold text_to_wav.
  erewrite bind_raise; [reflexivity|].
  unfold open_rb_read. rewrite H. reflexivity.
Qed.

Lemma encoder_missing_input_witness :
  text_to_wav "gone.txt" "out.wav" 16 (disk_with "other.txt" (bs "Hello"))
  = (Raise (FileNotFoundError "gone.txt"), disk_with "other.txt" (bs "Hello")).
Proof.
  apply (encoder_missing_input "gone.txt" "out.wav" 16
           (disk_with "other.txt" (bs "Hello"))).
  vm_compute. reflexivity.
Defined.

(** X2. Whatever the input, the depth and the outcome, the encoder changes
    no file other than the one at the output path. *)
Theorem encoder_touches_only_output (text_file wav_file : string)
    (bits_per_sample : Z) (w : world) (path : string) :
  path <> wav_file ->
  fs (snd (text_to_wav text_file wav_file bits_per_sample w)) !! path
  = fs w !! path.
Proof.
  intros Hne.
  destruct (fs w !! text_file) as [[x|c]|] eqn:E.
  - destruct (supported_dec bits_per_sample) as [Hs|Hs].
    + rewrite (text_to_wav_run text_file wav_file bits_per_sample x w Hs E).
      cbn [snd fs]. apply lookup_insert_ne. congruence.
    + destruct (Z_le_dec 1 (bits_per_sample / 8)) as [H1|H1];
        [destruct (Z_le_dec (bits_per_sample / 8) 4) as [H4|H4]|].
      * rewrite (text_to_wav_run_narrow text_file wav_file bits_per_sample x w)
          by (try assumption; lia).
        cbn [snd fs]. apply lookup_insert_ne. congruence.
      * rewrite (text_to_wav_run_wide text_file wav_file bits_per_sample x w)
          by (try assumption; lia).
        cbn [snd fs]. apply lookup_insert_ne. congruence.
      * rewrite (text_to_wav_run_wide text_file wav_file bits_per_sample x w)
          by (try assumption; lia).
        cbn [snd fs]. apply lookup_insert_ne. congruence.
  - unfold text_to_wav. erewrite bind_raise; [reflexivity|].
    unfold open_rb_read. rewrite E. reflexivity.
  - unfold text_to_wav. erewrite bind_raise; [reflexivity|].
    unfold open_rb_read. rewrite E. reflexivity.
Qed.

Lemma encoder_touches_only_output_witness :
  fs (snd (text_to_wav "in.txt" "out.wav" 12 (disk_with "in.txt" (bs "Hello"))))
    !! "in.txt"
  = fs (disk_with "in.txt" (bs "Hello")) !! "in.txt".
Proof.
  apply (encoder_touches_only_output "in.txt" "out.wav" 12
           (disk_with "in.txt" (bs "Hello")) "in.txt").
  discriminate.
Defined.



(** X4. When the WAV file does not exist the decoder raises
    [FileNotFoundError]; nothing is written and nothing is printed. *)
Theorem decoder_missing_input (wav_file output_text_file : string) (w : world) :
  fs w !! wav_file = None ->
  wav_to_text wav_file output_text_file w
  = (Raise (FileNotFoundError wav_file), w).
Proof.
  intros H. unfold wav_to_text, bind, wave_open_r. rewrite H. reflexivity.
Qed.

Lemma decoder_missing_input_witness :
  wav_to_text "gone.wav" "out.txt" (disk_with "in.txt" (bs "Hello"))
  = (Raise (FileNotFoundError "gone.wav"), disk_with "in.txt" (bs "Hello")).
Proof.
  apply (decoder_missing_input "gone.wav" "out.txt"
           (disk_with "in.txt" (bs "Hello"))).
  vm_compute. reflexivity.
Defined.

(** ** The container the encoder writes *)

Lemma b64encode_length_eq (x : list byte) :
  length (b64encode x) = (4 * ((length x + 2) / 3))%nat.
Proof.
  induction x as [|a|a b|a b c rest IH] using list_ind3; try reflexivity.
  rewrite b64encode_3. cbn [length]. rewrite IH.
  replace (S (S (S (length rest))) + 2)%nat
    with (1 * 3 + (length rest + 2))%nat by lia.
  rewrite Nat.div_add_l by lia. lia.
Qed.

(** X5. For a supported depth the encoder leaves at the output path a mono
    container at 44100 Hz of sample width [depth // 8] with one frame for
    each byte of the frame, that is [13 + 4 * ceil(len(x) / 3)] frames,
    and the size it reports is 44 bytes of header plus
    [depth // 8] bytes for each frame. *)
Theorem encoded_container_format (x : list byte) (bits_per_sample : Z)
    (text_file wav_file : string) (w : world) :
  supported bits_per_sample ->
  fs w !! text_file = Some (Plain x) ->
  exists data,
    let n := (13 + 4 * ((length x + 2) / 3))%nat in
    length data = (Z.to_nat (bits_per_sample / 8) * n)%nat /\
    text_to_wav text_file wav_file bits_per_sample w
    = (Ok tt,
       World (<[wav_file := Wave (Pcm 1 (bits_per_sample / 8) 44100
                                    (Z.of_nat n) data)]> (fs w))
             (stdout w
              ++ encoder_report text_file wav_file x
                   (44 + Z.to_nat (bits_per_sample / 8) * n))).
Proof.
  intros Hs Hfile.
  exists (concat (map (sample_bytes bits_per_sample) (MAGIC ++ b64encode x))).
  cbn zeta.
  assert (Hlen : length (concat (map (sample_bytes bits_per_sample)
                                     (MAGIC ++ b64encode x)))
                 = (Z.to_nat (bits_per_sample / 8)
                    * (13 + 4 * ((length x + 2) / 3)))%nat).
  { rewrite concat_sample_bytes_length by exact Hs.
    rewrite length_app, b64encode_length_eq.
    change (length MAGIC) with 13%nat. apply Nat.mul_comm. }
  split; [exact Hlen|].
  rewrite (text_to_wav_run text_file wav_file bits_per_sample x w Hs Hfile).
  unfold encoded_pcm, container, written.
  cbn [w_nchannels w_sampwidth w_framerate w_data frames].
  rewrite Hlen. do 4 f_equal.
  assert (Hsw : 1 <= bits_per_sample / 8)
    by (destruct Hs as [->|[->| ->]]; discriminate).
  rewrite Z.mul_1_l, Nat2Z.inj_mul, Z2Nat.id by lia.
  rewrite Z.mul_comm, Z.div_mul by lia. reflexivity.
Qed.

Lemma encoded_container_format_witness :
  exists data,
    let n := (13 + 4 * ((length (bs "Hello") + 2) / 3))%nat in
    length data = (Z.to_nat (32 / 8) * n)%nat /\
    text_to_wav "in.txt" "out.wav" 32 (disk_with "in.txt" (bs "Hello"))
    = (Ok tt,
       World (<["out.wav" := Wave (Pcm 1 (32 / 8) 44100 (Z.of_nat n) data)]>
                (fs (disk_with "in.txt" (bs "Hello"))))
             (stdout (disk_with "in.txt" (bs "Hello"))
              ++ encoder_report "in.txt" "out.wav" (bs "Hello")
                   (44 + Z.to_nat (32 / 8) * n))).
Proof.
  apply (encoded_container_format (bs "Hello") 32 "in.txt" "out.wav"
           (disk_with "in.txt" (bs "Hello"))).
  - right. right. reflexivity.
  - vm_compute. reflexivity.
Defined.

Lemma sample_bytes_layout (bits_per_sample : Z) (b : byte) :
  supported bits_per_sample ->
  sample_bytes bits_per_sample b = sample_layout bits_per_sample b.
Proof.
  intros [->|[->| ->]]; destruct b; vm_compute; reflexivity.
Qed.

(** X6. The data chunk the encoder writes, byte for byte: at depth 8 it is
    the frame itself, the text [ENCODED_TEXT:] followed by the base64 of
    the payload; at depths 16 and 32 each frame byte becomes one sample
    whose low bytes are zero and whose most significant byte is the frame
    byte with its top bit inverted. *)
Theorem encoded_data_layout (x : list byte) (bits_per_sample : Z)
    (text_file wav_file : string) (w : world) :
  supported bits_per_sample ->
  fs w !! text_file = Some (Plain x) ->
  exists c w1,
    text_to_wav text_file wav_file bits_per_sample w = (Ok tt, w1) /\
    fs w1 !! wav_file = Some (Wave c) /\
    frames c = concat (map (sample_layout bits_per_sample)
                           (MAGIC ++ b64encode x)) /\
    (bits_per_sample = 8 -> frames c = MAGIC ++ b64encode x).
Proof.
  intros Hs Hfile.
  exists (encoded_pcm wav_file bits_per_sample x). eexists.
  split; [apply text_to_wav_run; [exact Hs | exact Hfile]|].
  split; [cbn [fs]; apply lookup_insert_eq|].
  assert (E : frames (encoded_pcm wav_file bits_per_sample x)
              = concat (map (sample_layout bits_per_sample)
                            (MAGIC ++ b64encode x))).
  { unfold encoded_pcm, container, written. cbn [frames w_data].
    f_equal. apply map_ext. intros b. apply sample_bytes_layout. exact Hs. }
  split; [exact E|].
  intros ->. rewrite E. generalize (MAGIC ++ b64encode x). intros l.
  induction l as [|b l IH]; [reflexivity|].
  cbn [map concat]. rewrite IH. reflexivity.
Qed.

Lemma encoded_data_layout_witness :
  exists c w1,
    text_to_wav "in.txt" "out.wav" 8 (disk_with "in.txt" (bs "Hello"))
    = (Ok tt, w1) /\
    fs w1 !! "out.wav" = Some (Wave c) /\
    frames c = concat (map (sample_layout 8) (MAGIC ++ b64encode (bs "Hello"))) /\
    (8 = 8 -> frames c = MAGIC ++ b64encode (bs "Hello")).
Proof.
  apply (encoded_data_layout (bs "Hello") 8 "in.txt" "out.wav"
           (disk_with "in.txt" (bs "Hello"))).
  - left. reflexivity.
  - vm_compute. reflexivity.
Defined.

(** ** What the decoder reads of a sample *)

Lemma flip_top_value (b : byte) :
  byte_to_Z (flip_top b) = (byte_to_Z b + 128) mod 256.
Proof.
  unfold flip_top. apply byte_to_of_Z. apply Z.mod_pos_bound. lia.
Qed.

Lemma decoded_byte_2 (b0 b1 : byte) : decoded_byte 2 [b0; b1] = flip_top b1.
Proof.
  unfold decoded_byte, sample_of, struct_unpack_h, recover16, flip_top, to_signed.
  cbn [Z.eqb Pos.eqb]. change (65536 / 2) with 32768.
  pose proof (byte_to_Z_range b0). pose proof (byte_to_Z_range b1).
  f_equal.
  destruct (Z.ltb_spec (byte_to_Z b0 + 256 * byte_to_Z b1) 32768);
    Z.div_mod_to_equations; lia.
Qed.

Lemma decoded_byte_4 (b0 b1 b2 b3 : byte) :
  decoded_byte 4 [b0; b1; b2; b3] = flip_top b3.
Proof.
  unfold decoded_byte, sample_of, struct_unpack_i, recover32, flip_top, to_signed.
  cbn [Z.eqb Pos.eqb]. change (4294967296 / 2) with 2147483648.
  pose proof (byte_to_Z_range b0). pose proof (byte_to_Z_range b1).
  pose proof (byte_to_Z_range b2). pose proof (byte_to_Z_range b3).
  f_equal.
  destruct (Z.ltb_spec (byte_to_Z b0 + 256 * byte_to_Z b1
                        + 65536 * byte_to_Z b2 + 16777216 * byte_to_Z b3)
                       2147483648);
    Z.div_mod_to_equations; lia.
Qed.

(** X7. Of a 16-bit sample the decoder keeps only the most significant
    byte, with its top bit inverted: the low byte has no effect, and the
    clamp to 0..255 never changes a value.  Likewise for 32-bit samples,
    of which only the fourth byte counts. *)
Theorem decoder_reads_top_byte (samples16 : list (byte * byte))
    (samples32 : list (byte * byte * byte * byte)) :
  unpack_frames 2 (concat (map (fun '(lo, hi) => [lo; hi]) samples16))
  = Ok (Some (map (fun '(lo, hi) => flip_top hi) samples16)) /\
  unpack_frames 4
    (concat (map (fun '(b0, b1, b2, b3) => [b0; b1; b2; b3]) samples32))
  = Ok (Some (map (fun '(b0, b1, b2, b3) => flip_top b3) samples32)).
Proof.
  split.
  - rewrite <- (app_nil_r (concat _)).
    rewrite unpack_frames_chunks; [| auto | | cbn; lia].
    + do 2 f_equal. rewrite map_map. apply map_ext.
      intros [lo hi]. apply decoded_byte_2.
    + apply Forall_forall. intros c Hc. apply list_elem_of_In in Hc.
      apply in_map_iff in Hc as ([lo hi] & <- & _). reflexivity.
  - rewrite <- (app_nil_r (concat _)).
    rewrite unpack_frames_chunks; [| auto | | cbn; lia].
    + do 2 f_equal. rewrite map_map. apply map_ext.
      intros [[[b0 b1] b2] b3]. apply decoded_byte_4.
    + apply Forall_forall. intros c Hc. apply list_elem_of_In in Hc.
      apply in_map_iff in Hc as ([[[b0 b1] b2] b3] & <- & _). reflexivity.
Qed.

Lemma concat_chunks_length (k : nat) (chunks : list (list byte)) :
  Forall (fun c => length c = k) chunks ->
  length (concat chunks) = (length chunks * k)%nat.
Proof.
  intros H. induction H as [|c chunks Hc H IH]; [reflexivity|].
  cbn [concat length]. rewrite length_app, IH, Hc. lia.
Qed.

(** The stream recovered from data of a known width has one byte for each
    full sample. *)
Lemma unpack_frames_length (sample_width : Z) (raw_data : list byte) :
  sample_width = 1 \/ sample_width = 2 \/ sample_width = 4 ->
  exists decoded_bytes,
    unpack_frames sample_width raw_data = Ok (Some decoded_bytes) /\
    (length decoded_bytes * Z.to_nat sample_width <= length raw_data)%nat.
Proof.
  intros Hsw.
  assert (Hk : (0 < Z.to_nat sample_width)%nat)
    by (destruct Hsw as [->|[->| ->]]; cbn; lia).
  destruct (chunks_exist (Z.to_nat sample_width) raw_data Hk)
    as (chunks & tail & -> & Hall & Htail).
  exists (map (decoded_byte sample_width) chunks). split.
  - apply unpack_frames_chunks; assumption.
  - rewrite length_map, length_app, (concat_chunks_length _ _ Hall). lia.
Qed.

(** X8. A sample cut off at the end of the data is dropped without an
    error: bytes after the last full sample change nothing in what the
    decoder recovers. *)
Theorem partial_sample_dropped (sample_width : Z) (raw_data tail : list byte) :
  sample_width = 1 \/ sample_width = 2 \/ sample_width = 4 ->
  (length raw_data mod Z.to_nat sample_width = 0)%nat ->
  (length tail < Z.to_nat sample_width)%nat ->
  unpack_frames sample_width (raw_data ++ tail)
  = unpack_frames sample_width raw_data.
Proof.
  intros Hsw Hmod Htail.
  assert (Hk : (0 < Z.to_nat sample_width)%nat)
    by (destruct Hsw as [->|[->| ->]]; cbn; lia).
  destruct (chunks_exist (Z.to_nat sample_width) raw_data Hk)
    as (chunks & rest & -> & Hall & Hrest).
  assert (rest = []) as ->.
  { rewrite length_app, (concat_chunks_length _ _ Hall) in Hmod.
    rewrite Nat.add_comm, Nat.Div0.mod_add in Hmod.
    rewrite Nat.mod_small in Hmod by exact Hrest.
    destruct rest; [reflexivity | discriminate]. }
  rewrite app_nil_r.
  rewrite (unpack_frames_chunks sample_width chunks tail) by assumption.
  rewrite <- (app_nil_r (concat chunks)) at 1.
  rewrite (unpack_frames_chunks sample_width chunks []);
    [reflexivity | assumption | assumption | cbn; lia].
Qed.

Lemma partial_sample_dropped_witness :
  unpack_frames 2 ([x00; xc5; x00; xce] ++ [x7f])
  = unpack_frames 2 [x00; xc5; x00; xce].
Proof.
  apply (partial_sample_dropped 2 [x00; xc5; x00; xce] [x7f]).
  - right. left. reflexivity.
  - reflexivity.
  - cbn. lia.
Defined.

Lemma occurs_at_length (sub s : list byte) (j : nat) :
  occurs_at sub s j -> (j + length sub <= length s)%nat.
Proof.
  intros (pre & post & -> & <-). rewrite !length_app. lia.
Qed.

(** X9. A container of a known sample width that holds fewer than 13 full
    samples, an empty one included, is always reported as not encoded,
    and no file is changed. *)
Theorem short_stream_not_encoded (c : pcm) (wav_file output_text_file : string)
    (w : world) :
  getsampwidth c = 1 \/ getsampwidth c = 2 \/ getsampwidth c = 4 ->
  (length (readframes c (getnframes c)) < 13 * Z.to_nat (getsampwidth c))%nat ->
  fs w !! wav_file = Some (Wave c) ->
  wav_to_text wav_file output_text_file w
  = (Ok tt, World (fs w) (stdout w ++ [msg_not_encoded])).
Proof.
  intros Hsw Hshort Hfile.
  rewrite (wav_to_text_run wav_file output_text_file c w Hfile).
  destruct (unpack_frames_length (getsampwidth c)
              (readframes c (getnframes c)) Hsw) as (d & E & Hlen).
  unfold decoded_stream. rewrite E.
  apply after_header_absent. intros j Hocc.
  apply occurs_at_length in Hocc. change (length MAGIC) with 13%nat in Hocc.
  assert (Hk : (0 < Z.to_nat (getsampwidth c))%nat)
    by (destruct Hsw as [->|[->| ->]]; cbn; lia).
  nia.
Qed.

Lemma short_stream_not_encoded_witness :
  wav_to_text "in.wav" "out.txt" (disk_with_wav "in.wav" (Pcm 1 2 44100 0 []))
  = (Ok tt,
     World (fs (disk_with_wav "in.wav" (Pcm 1 2 44100 0 [])))
           (stdout (disk_with_wav "in.wav" (Pcm 1 2 44100 0 []))
            ++ [msg_not_encoded])).
Proof.
  apply (short_stream_not_encoded (Pcm 1 2 44100 0 []) "in.wav" "out.txt"
           (disk_with_wav "in.wav" (Pcm 1 2 44100 0 []))).
  - right. left. reflexivity.
  - cbn. lia.
  - vm_compute. reflexivity.
Defined.

(** X10. Encoding again to the same output path overwrites the container:
    the files after the second run are those after the first. *)
Theorem reencoding_overwrites (x : list byte) (bits_per_sample : Z)
    (text_file wav_file : string) (w : world) :
  supported bits_per_sample ->
  text_file <> wav_file ->
  fs w !! text_file = Some (Plain x) ->
  exists w1 w2,
    text_to_wav text_file wav_file bits_per_sample w = (Ok tt, w1) /\
    text_to_wav text_file wav_file bits_per_sample w1 = (Ok tt, w2) /\
    fs w2 = fs w1.
Proof.
  intros Hs Hne Hfile. eexists. eexists.
  split; [apply text_to_wav_run; [exact Hs | exact Hfile]|].
  split.
  - apply text_to_wav_run; [exact Hs|].
    cbn [fs]. rewrite lookup_insert_ne by congruence. exact Hfile.
  - cbn [fs]. apply insert_insert_eq.
Qed.

Lemma reencoding_overwrites_witness :
  exists w1 w2,
    text_to_wav "in.txt" "out.wav" 8 (disk_with "in.txt" (bs "Hello"))
    = (Ok tt, w1) /\
    text_to_wav "in.txt" "out.wav" 8 w1 = (Ok tt, w2) /\
    fs w2 = fs w1.
Proof.
  apply (reencoding_overwrites (bs "Hello") 8 "in.txt" "out.wav"
           (disk_with "in.txt" (bs "Hello"))).
  - left. reflexivity.
  - discriminate.
  - vm_compute. reflexivity.
Defined.

(** ** The header in the encoder's frame *)

(** No character of base64 text is the colon that ends the header. *)
Lemma b64encode_no_colon (x : list byte) :
  Forall (fun c => c <> ":"%byte) (b64encode x).
Proof.
  assert (Hb2a : forall six, 0 <= six < 64 -> b2a six <> ":"%byte).
  { intros six H E. pose proof (in_alphabet_b2a six H) as Ha.
    rewrite E in Ha. discriminate Ha. }
  induction x as [|a|a b|a b c rest IH] using list_ind3.
  - constructor.
  - rewrite b64encode_1.
    repeat constructor;
      first [apply Hb2a, is_six_range; first [apply six0_ok | apply six1_last_ok]
            | discriminate].
  - rewrite b64encode_2.
    repeat constructor;
      first [apply Hb2a, is_six_range;
             first [apply six0_ok | apply six1_ok | apply six2_last_ok]
            | discriminate].
  - rewrite b64encode_3.
    repeat (constructor;
            [apply Hb2a, is_six_range;
             first [apply six0_ok | apply six1_ok | apply six2_ok | apply six3_ok]|]).
    exact IH.
Qed.

(** X11. In the frame the encoder builds, MAGIC occurs at index 0 and
    nowhere else, whatever the payload: base64 text never holds the colon
    that ends the header, so the decoder's search cannot be misled by the
    payload. *)
Theorem magic_occurs_once_in_frame (x : list byte) (j : nat) :
  occurs_at MAGIC (MAGIC ++ b64encode x) j <-> j = 0%nat.
Proof.
  split.
  - intros (pre & post & E & Hlen).
    destruct j as [|j]; [reflexivity|]. exfalso.
    assert (Hnth : nth (S j + 12) (MAGIC ++ b64encode x) x00 = ":"%byte).
    { rewrite E, <- Hlen. rewrite app_nth2 by lia.
      replace (length pre + 12 - length pre)%nat with 12%nat by lia.
      reflexivity. }
    rewrite app_nth2 in Hnth by (change (length MAGIC) with 13%nat; lia).
    change (length MAGIC) with 13%nat in Hnth.
    assert (Hin : (S j + 12 - 13 < length (b64encode x))%nat).
    { assert (Hl : length (MAGIC ++ b64encode x)
                   = length (pre ++ MAGIC ++ post)) by (rewrite <- E; reflexivity).
      rewrite !length_app in Hl. change (length MAGIC) with 13%nat in Hl. lia. }
    pose proof (b64encode_no_colon x) as Hall. rewrite Forall_forall in Hall.
    apply (Hall (nth (S j + 12 - 13) (b64encode x) x00)); [|exact Hnth].
    apply list_elem_of_In. apply nth_In. exact Hin.
  - intros ->. exists [], (b64encode x). split; reflexivity.
Qed.

(** X12. Whatever the supported depth, the stream the decoder recovers
    from the encoder's container is the same frame, MAGIC followed by the
    base64 text of the payload, and the decoder finds the header at
    index 0. *)
Theorem frame_recovered_at_any_depth (x : list byte) (bits_per_sample : Z)
    (text_file wav_file : string) (w : world) :
  supported bits_per_sample ->
  fs w !! text_file = Some (Plain x) ->
  exists c w1,
    text_to_wav text_file wav_file bits_per_sample w = (Ok tt, w1) /\
    fs w1 !! wav_file = Some (Wave c) /\
    decoded_stream c = Ok (Some (MAGIC ++ b64encode x)) /\
    bytes_contains (MAGIC ++ b64encode x) MAGIC = true /\
    bytes_find (MAGIC ++ b64encode x) MAGIC = 0.
Proof.
  intros Hs Hfile.
  exists (encoded_pcm wav_file bits_per_sample x). eexists.
  split; [apply text_to_wav_run; [exact Hs | exact Hfile]|].
  split; [cbn [fs]; apply lookup_insert_eq|].
  split; [apply decoded_stream_encoded; exact Hs|].
  split.
  - apply bytes_contains_spec. exists 0%nat, [], (b64encode x).
    split; reflexivity.
  - exact (bytes_find_first MAGIC [] (b64encode x)
             (first_occurrence_at_start MAGIC (b64encode x))).
Qed.

Lemma frame_recovered_at_any_depth_witness :
  exists c w1,
    text_to_wav "in.txt" "out.wav" 32 (disk_with "in.txt" [x00; xff])
    = (Ok tt, w1) /\
    fs w1 !! "out.wav" = Some (Wave c) /\
    decoded_stream c = Ok (Some (MAGIC ++ b64encode [x00; xff])) /\
    bytes_contains (MAGIC ++ b64encode [x00; xff]) MAGIC = true /\
    bytes_find (MAGIC ++ b64encode [x00; xff]) MAGIC = 0.
Proof.
  apply (frame_recovered_at_any_depth [x00; xff] 32 "in.txt" "out.wav"
           (disk_with "in.txt" [x00; xff])).
  - right. right. reflexivity.
  - vm_compute. reflexivity.
Defined.

(** ** Damaged and extended payloads *)

(** The run of the decoder on a stream that starts with the header. *)
Lemma wav_to_text_run_frame (c : pcm) (wav_file output_text_file : string)
    (w : world) (rest : list byte) :
  fs w !! wav_file = Some (Wave c) ->
  decoded_stream c = Ok (Some (MAGIC ++ rest)) ->
  wav_to_text wav_file output_text_file w
  = match b64decode rest with
    | Ok original_data =>
        (Ok tt,
         World (<[output_text_file := Plain original_data]> (fs w))
               (stdout w
                ++ decoder_report wav_file output_text_file original_data))
    | Raise e =>
        (Ok tt,
         World (fs w) (stdout w ++ ["Error decoding data: " +:+ exn_str e]))
    end.
Proof.
  intros Hfile Hstream.
  rewrite (wav_to_text_run wav_file output_text_file c w Hfile), Hstream.
  exact (after_header_first wav_file output_text_file [] rest w
           (first_occurrence_at_start MAGIC rest)).
Qed.

(** X13. Cutting the base64 text of an encoded stream at a length that is
    not a multiple of 4 is always detected: the decoder prints the
    decoding error, returns normally and writes nothing. *)
Theorem truncated_payload_is_reported (c : pcm)
    (wav_file output_text_file : string) (w : world) (x : list byte) (n : nat) :
  fs w !! wav_file = Some (Wave c) ->
  decoded_stream c = Ok (Some (MAGIC ++ firstn n (b64encode x))) ->
  (n < length (b64encode x))%nat ->
  (n mod 4 <> 0)%nat ->
  exists e,
    wav_to_text wav_file output_text_file w
    = (Ok tt,
       World (fs w) (stdout w ++ ["Error decoding data: " +:+ exn_str e])).
Proof.
  intros Hfile Hstream Hn Hmod.
  destruct (b64decode_truncated x n Hn Hmod) as [e He].
  exists e.
  rewrite (wav_to_text_run_frame c wav_file output_text_file w _ Hfile Hstream).
  rewrite He. reflexivity.
Qed.

Lemma truncated_payload_is_reported_witness :
  exists e,
    wav_to_text "in.wav" "out.txt"
      (disk_with_wav "in.wav" (Pcm 1 1 44100 18 (bs "ENCODED_TEXT:SGVsb")))
    = (Ok tt,
       World (fs (disk_with_wav "in.wav"
                    (Pcm 1 1 44100 18 (bs "ENCODED_TEXT:SGVsb"))))
             (stdout (disk_with_wav "in.wav"
                        (Pcm 1 1 44100 18 (bs "ENCODED_TEXT:SGVsb")))
              ++ ["Error decoding data: " +:+ exn_str e])).
Proof.
  apply (truncated_payload_is_reported
           (Pcm 1 1 44100 18 (bs "ENCODED_TEXT:SGVsb")) "in.wav" "out.txt"
           (disk_with_wav "in.wav" (Pcm 1 1 44100 18 (bs "ENCODED_TEXT:SGVsb")))
           (bs "Hello") 5).
  - vm_compute. reflexivity.
  - vm_compute. reflexivity.
  - vm_compute. lia.
  - vm_compute. discriminate.
Defined.

Lemma a2b_loop_quads (x : list byte) :
  forall (q : nat) (bin : list byte),
    (4 * q < length (b64encode x))%nat ->
    a2b_loop (firstn (4 * q) (b64encode x)) 0 0 0 bin
    = Ok (bin ++ firstn (3 * q) x).
Proof.
  induction x as [|a|a b|a b c rest IH] using list_ind3; intros q bin Hq.
  - cbn in Hq. lia.
  - rewrite b64encode_1 in *. cbn [length] in Hq.
    assert (q = 0%nat) as -> by lia. cbn. rewrite app_nil_r. reflexivity.
  - rewrite b64encode_2 in *. cbn [length] in Hq.
    assert (q = 0%nat) as -> by lia. cbn. rewrite app_nil_r. reflexivity.
  - rewrite b64encode_3 in *. cbn [length] in Hq.
    destruct q as [|q].
    + cbn. rewrite app_nil_r. reflexivity.
    + replace (4 * S q)%nat with (S (S (S (S (4 * q))))) by lia.
      replace (3 * S q)%nat with (S (S (S (3 * q)))) by lia.
      cbn [firstn]. rewrite a2b_loop_quad, IH by lia.
      rewrite <- app_assoc. reflexivity.
Qed.

(** X14. Cutting the base64 text at a multiple of 4 characters is not
    detected: the decoder reports success and writes the first [3 * q]
    bytes of the payload. *)
Theorem quad_truncation_is_silent (c : pcm)
    (wav_file output_text_file : string) (w : world) (x : list byte) (q : nat) :
  fs w !! wav_file = Some (Wave c) ->
  decoded_stream c = Ok (Some (MAGIC ++ firstn (4 * q) (b64encode x))) ->
  (4 * q < length (b64encode x))%nat ->
  wav_to_text wav_file output_text_file w
  = (Ok tt,
     World (<[output_text_file := Plain (firstn (3 * q) x)]> (fs w))
           (stdout w
            ++ decoder_report wav_file output_text_file (firstn (3 * q) x))).
Proof.
  intros Hfile Hstream Hq.
  rewrite (wav_to_text_run_frame c wav_file output_text_file w _ Hfile Hstream).
  unfold b64decode. rewrite a2b_loop_quads by exact Hq. reflexivity.
Qed.

Lemma quad_truncation_is_silent_witness :
  wav_to_text "in.wav" "out.txt"
    (disk_with_wav "in.wav" (Pcm 1 1 44100 17 (bs "ENCODED_TEXT:SGVs")))
  = (Ok tt,
     World (<["out.txt" := Plain (firstn (3 * 1) (bs "Hello"))]>
              (fs (disk_with_wav "in.wav"
                     (Pcm 1 1 44100 17 (bs "ENCODED_TEXT:SGVs")))))
           (stdout (disk_with_wav "in.wav"
                      (Pcm 1 1 44100 17 (bs "ENCODED_TEXT:SGVs")))
            ++ decoder_report "in.wav" "out.txt" (firstn (3 * 1) (bs "Hello")))).
Proof.
  apply (quad_truncation_is_silent
           (Pcm 1 1 44100 17 (bs "ENCODED_TEXT:SGVs")) "in.wav" "out.txt"
           (disk_with_wav "in.wav" (Pcm 1 1 44100 17 (bs "ENCODED_TEXT:SGVs")))
           (bs "Hello") 1).
  - vm_compute. reflexivity.
  - vm_compute. reflexivity.
  - vm_compute. lia.
Defined.

Lemma a2b_loop_padded_then (x junk : list byte) :
  forall bin,
    (length x mod 3 <> 0)%nat ->
    a2b_loop (b64encode x ++ junk) 0 0 0 bin = Ok (bin ++ x).
Proof.
  induction x as [|a|a b|a b c rest IH] using list_ind3; intros bin Hmod.
  - cbn in Hmod. lia.
  - rewrite b64encode_1. cbn [app].
    rewrite a2b_loop_data by (apply is_six_range, six0_ok).
    rewrite a2b_loop_data by (apply is_six_range, six1_last_ok).
    pose proof (out0_last a) as H0. apply byte_eqb_eq in H0. rewrite H0.
    reflexivity.
  - rewrite b64encode_2. cbn [app].
    rewrite a2b_loop_data by (apply is_six_range, six0_ok).
    rewrite a2b_loop_data by (apply is_six_range, six1_ok).
    rewrite a2b_loop_data by (apply is_six_range, six2_last_ok).
    pose proof (out0 a b) as H0. apply byte_eqb_eq in H0. rewrite H0.
    pose proof (left1 a b) as H1. apply Z.eqb_eq in H1. rewrite H1.
    pose proof (right2_last b) as H2. apply Z.eqb_eq in H2. rewrite H2.
    pose proof (out1 b) as H3. apply byte_eqb_eq in H3. rewrite H3.
    cbn. rewrite <- app_assoc. reflexivity.
  - rewrite b64encode_3. cbn [app]. rewrite a2b_loop_quad, IH.
    + rewrite <- app_assoc. reflexivity.
    + cbn [length] in Hmod.
      replace (S (S (S (length rest)))) with (length rest + 1 * 3)%nat
        in Hmod by lia.
      rewrite Nat.Div0.mod_add in Hmod. exact Hmod.
Qed.

(** X15. When the payload length is not a multiple of 3 its base64 text
    ends in padding, and the decoder stops there: whatever samples follow
    the encoded frame in the container, the payload is recovered
    exactly. *)
Theorem data_after_padding_ignored (c : pcm)
    (wav_file output_text_file : string) (w : world) (x junk : list byte) :
  fs w !! wav_file = Some (Wave c) ->
  decoded_stream c = Ok (Some (MAGIC ++ b64encode x ++ junk)) ->
  (length x mod 3 <> 0)%nat ->
  wav_to_text wav_file output_text_file w
  = (Ok tt,
     World (<[output_text_file := Plain x]> (fs w))
           (stdout w ++ decoder_report wav_file output_text_file x)).
Proof.
  intros Hfile Hstream Hmod.
  rewrite (wav_to_text_run_frame c wav_file output_text_file w _ Hfile Hstream).
  unfold b64decode. rewrite a2b_loop_padded_then by exact Hmod. reflexivity.
Qed.

Lemma data_after_padding_ignored_witness :
  wav_to_text "in.wav" "out.txt"
    (disk_with_wav "in.wav"
       (Pcm 1 1 44100 27 (bs "ENCODED_TEXT:SGVsbG8=noise!")))
  = (Ok tt,
     World (<["out.txt" := Plain (bs "Hello")]>
              (fs (disk_with_wav "in.wav"
                     (Pcm 1 1 44100 27 (bs "ENCODED_TEXT:SGVsbG8=noise!")))))
           (stdout (disk_with_wav "in.wav"
                      (Pcm 1 1 44100 27 (bs "ENCODED_TEXT:SGVsbG8=noise!")))
            ++ decoder_report "in.wav" "out.txt" (bs "Hello"))).
Proof.
  apply (data_after_padding_ignored
           (Pcm 1 1 44100 27 (bs "ENCODED_TEXT:SGVsbG8=noise!"))
           "in.wav" "out.txt"
           (disk_with_wav "in.wav"
              (Pcm 1 1 44100 27 (bs "ENCODED_TEXT:SGVsbG8=noise!")))
           (bs "Hello") (bs "noise!")).
  - vm_compute. reflexivity.
  - vm_compute. reflexivity.
  - vm_compute. discriminate.
Defined.

(** ** Sample widths the decoder knows and does not know *)

(** X16. On a container of sample width 1, 2 or 4 the decoder never
    raises, whatever the channel count, the frame count and the data: it
    returns normally and prints at least one line. *)
Theorem decoder_returns_on_known_width (c : pcm)
    (wav_file output_text_file : string) (w : world) :
  getsampwidth c = 1 \/ getsampwidth c = 2 \/ getsampwidth c = 4 ->
  fs w !! wav_file = Some (Wave c) ->
  exists files line lines,
    wav_to_text wav_file output_text_file w
    = (Ok tt, World files (stdout w ++ line :: lines)).
Proof.
  intros Hsw Hfile.
  rewrite (wav_to_text_run wav_file output_text_file c w Hfile).
  destruct (unpack_frames_total (getsampwidth c)
              (readframes c (getnframes c)) Hsw) as [d E].
  unfold decoded_stream. rewrite E. unfold after_header, decoder_report.
  destruct (bytes_contains d MAGIC);
    [destruct (b64decode _)|]; eexists; eexists; eexists; reflexivity.
Qed.

Lemma decoder_returns_on_known_width_witness :
  exists files line lines,
    wav_to_text "in.wav" "out.txt"
      (disk_with_wav "in.wav" (Pcm 2 4 48000 1 [x01; x02; x03; x04; x05]))
    = (Ok tt,
       World files
         (stdout (disk_with_wav "in.wav"
                    (Pcm 2 4 48000 1 [x01; x02; x03; x04; x05]))
          ++ line :: lines)).
Proof.
  apply (decoder_returns_on_known_width
           (Pcm 2 4 48000 1 [x01; x02; x03; x04; x05]) "in.wav" "out.txt"
           (disk_with_wav "in.wav" (Pcm 2 4 48000 1 [x01; x02; x03; x04; x05]))).
  - right. right. reflexivity.
  - vm_compute. reflexivity.
Defined.

(** X17. On a container of any other sample width the decoder raises
    [UnboundLocalError] whatever the data, even data that holds a complete
    frame; no file is changed and nothing is printed. *)
Theorem decoder_raises_on_other_width (c : pcm)
    (wav_file output_text_file : string) (w : world) :
  getsampwidth c <> 1 -> getsampwidth c <> 2 -> getsampwidth c <> 4 ->
  fs w !! wav_file = Some (Wave c) ->
  wav_to_text wav_file output_text_file w
  = (Raise (UnboundLocalError "decoded_bytes"), w).
Proof.
  intros H1 H2 H4 Hfile.
  exact (unknown_width_raises c wav_file output_text_file w H1 H2 H4 Hfile).
Qed.

Lemma decoder_raises_on_other_width_witness :
  wav_to_text "in.wav" "out.txt"
    (disk_with_wav "in.wav" (Pcm 1 3 44100 7 (bs "ENCODED_TEXT:SGVsbG8=")))
  = (Raise (UnboundLocalError "decoded_bytes"),
     disk_with_wav "in.wav" (Pcm 1 3 44100 7 (bs "ENCODED_TEXT:SGVsbG8="))).
Proof.
  apply (decoder_raises_on_other_width
           (Pcm 1 3 44100 7 (bs "ENCODED_TEXT:SGVsbG8=")) "in.wav" "out.txt"
           (disk_with_wav "in.wav"
              (Pcm 1 3 44100 7 (bs "ENCODED_TEXT:SGVsbG8=")))).
  - discriminate.
  - discriminate.
  - discriminate.
  - vm_compute. reflexivity.
Defined.

(** ** The command line *)

Lemma main_encode (prog command text_file wav_file : string)
    (more : list string) (w : world) :
  str_lower command = "encode"%string ->
  main (prog :: command :: text_file :: wav_file :: more) w
  = call (text_to_wav text_file wav_file 16) w.
Proof.
  intros H. unfold main. cbn [length nth Nat.ltb Nat.leb]. rewrite H.
  reflexivity.
Qed.

Lemma main_decode (prog command wav_file output_text_file : string)
    (more : list string) (w : world) :
  str_lower command = "decode"%string ->
  main (prog :: command :: wav_file :: output_text_file :: more) w
  = call (wav_to_text wav_file output_text_file) w.
Proof.
  intros H. unfold main. cbn [length nth Nat.ltb Nat.leb]. rewrite H.
  reflexivity.
Qed.

(** X18. An invocation with too few arguments changes no file and ends
    with status 1 after printing a message: the three lines of the usage
    text when fewer than two arguments follow the script name; the line
    asking for the input text file and output WAV file when [encode], in
    any letter case, is followed by one argument; the line asking for the
    input WAV file and output text file when [decode] is. *)
Theorem cli_too_few_arguments (argv : list string) (w : world) :
  (length argv < 3)%nat \/
  (length argv = 3%nat /\
   (str_lower (nth 1 argv EmptyString) = "encode"%string \/
    str_lower (nth 1 argv EmptyString) = "decode"%string)) ->
  main argv w
  = (SystemExit 1,
     World (fs w)
       (stdout w
        ++ (if (length argv <? 3)%nat then
              ["Usage:";
               "  To encode: python script.py encode input.txt output.wav";
               "  To decode: python script.py decode input.wav output.txt"]
            else if String.eqb (str_lower (nth 1 argv EmptyString)) "encode"
            then ["Please provide input text file and output WAV file"]
            else ["Please provide input WAV file and output text file"]))) /\
  exit_status (fst (main argv w)) = 1.
Proof.
  intros [Hlen|[Hlen [Hcmd|Hcmd]]]; unfold main.
  - replace (length argv <? 3)%nat with true
      by (symmetry; apply Nat.ltb_lt; exact Hlen).
    split; reflexivity.
  - rewrite Hlen, Hcmd. split; reflexivity.
  - rewrite Hlen, Hcmd. split; reflexivity.
Qed.

Lemma cli_too_few_arguments_witness :
  main ["script.py"; "Decode"; "in.wav"]%string (disk_with "in.txt" (bs "Hello"))
  = (SystemExit 1,
     World (fs (disk_with "in.txt" (bs "Hello")))
       (stdout (disk_with "in.txt" (bs "Hello"))
        ++ ["Please provide input WAV file and output text file"])) /\
  exit_status (fst (main ["script.py"; "Decode"; "in.wav"]%string
                      (disk_with "in.txt" (bs "Hello")))) = 1.
Proof.
  apply (cli_too_few_arguments ["script.py"; "Decode"; "in.wav"]%string
           (disk_with "in.txt" (bs "Hello"))).
  right. split; [reflexivity|]. right. reflexivity.
Defined.

(** X19. A command that is neither [encode] nor [decode] in any letter
    case, followed by at least one more argument, prints one line, changes
    no file and lets the script end with status 0. *)
Theorem cli_unknown_command (argv : list string) (w : world) :
  (3 <= length argv)%nat ->
  str_lower (nth 1 argv EmptyString) <> "encode"%string ->
  str_lower (nth 1 argv EmptyString) <> "decode"%string ->
  main argv w
  = (Finished,
     World (fs w) (stdout w ++ ["Unknown command. Use 'encode' or 'decode'"])) /\
  exit_status (fst (main argv w)) = 0.
Proof.
  intros Hlen He Hd. unfold main.
  replace (length argv <? 3)%nat with false
    by (symmetry; apply Nat.ltb_ge; exact Hlen).
  apply String.eqb_neq in He. apply String.eqb_neq in Hd.
  rewrite He, Hd. split; reflexivity.
Qed.

Lemma cli_unknown_command_witness :
  main ["script.py"; "encrypt"; "in.txt"; "out.wav"]%string
    (disk_with "in.txt" (bs "Hello"))
  = (Finished,
     World (fs (disk_with "in.txt" (bs "Hello")))
           (stdout (disk_with "in.txt" (bs "Hello"))
            ++ ["Unknown command. Use 'encode' or 'decode'"])) /\
  exit_status (fst (main ["script.py"; "encrypt"; "in.txt"; "out.wav"]%string
                      (disk_with "in.txt" (bs "Hello")))) = 0.
Proof.
  apply (cli_unknown_command ["script.py"; "encrypt"; "in.txt"; "out.wav"]%string
           (disk_with "in.txt" (bs "Hello"))).
  - cbn. lia.
  - discriminate.
  - discriminate.
Defined.

(** X20. Round trip through the command line: [encode] and [decode], in
    any letter case and whatever further arguments follow the two paths,
    both end with status 0; the container is written at depth 16 and the
    decoder writes exactly the payload. *)
Theorem cli_round_trip (x : list byte)
    (prog1 prog2 command1 command2 text_file wav_file output_text_file : string)
    (more1 more2 : list string) (w : world) :
  str_lower command1 = "encode"%string ->
  str_lower command2 = "decode"%string ->
  fs w !! text_file = Some (Plain x) ->
  exists c w1 w2,
    main (prog1 :: command1 :: text_file :: wav_file :: more1) w
    = (Finished, w1) /\
    fs w1 !! wav_file = Some (Wave c) /\ sampwidth c = 2 /\
    main (prog2 :: command2 :: wav_file :: output_text_file :: more2) w1
    = (Finished, w2) /\
    fs w2 !! output_text_file = Some (Plain x).
Proof.
  intros H1 H2 Hfile.
  assert (Hs : supported 16) by (right; left; reflexivity).
  exists (encoded_pcm wav_file 16 x). eexists. eexists.
  rewrite (main_encode _ _ _ _ _ _ H1). unfold call at 1.
  rewrite (text_to_wav_run text_file wav_file 16 x w Hs Hfile).
  split; [reflexivity|].
  split; [cbn [fs]; apply lookup_insert_eq|].
  split; [reflexivity|].
  rewrite (main_decode _ _ _ _ _ _ H2). unfold call.
  rewrite (wav_to_text_run_frame (encoded_pcm wav_file 16 x) wav_file
             output_text_file _ (b64encode x));
    [| cbn [fs]; apply lookup_insert_eq | apply decoded_stream_encoded; exact Hs].
  rewrite b64decode_b64encode.
  split; [reflexivity|]. cbn [fs]. apply lookup_insert_eq.
Qed.

Lemma cli_round_trip_witness :
  exists c w1 w2,
    main ("script.py" :: "ENCODE" :: "in.txt" :: "out.wav" :: ["extra"])%string
      (disk_with "in.txt" (bs "Hello"))
    = (Finished, w1) /\
    fs w1 !! "out.wav" = Some (Wave c) /\ sampwidth c = 2 /\
    main ("script.py" :: "Decode" :: "out.wav" :: "back.txt" :: [])%string w1
    = (Finished, w2) /\
    fs w2 !! "back.txt" = Some (Plain (bs "Hello")).
Proof.
  apply (cli_round_trip (bs "Hello") "script.py" "script.py" "ENCODE" "Decode"
           "in.txt" "out.wav" "back.txt" ["extra"%string] []
           (disk_with "in.txt" (bs "Hello"))).
  - reflexivity.
  - reflexivity.
  - vm_compute. reflexivity.
Defined.

(** X21. The exit status does not tell whether decoding worked: [decode]
    on any container of sample width 1, 2 or 4 ends with status 0, be the
    payload recovered, the base64 text damaged or the header absent. *)
Theorem cli_decode_status_0 (c : pcm)
    (prog command wav_file output_text_file : string) (more : list string)
    (w : world) :
  str_lower command = "decode"%string ->
  getsampwidth c = 1 \/ getsampwidth c = 2 \/ getsampwidth c = 4 ->
  fs w !! wav_file = Some (Wave c) ->
  exit_status
    (fst (main (prog :: command :: wav_file :: output_text_file :: more) w))
  = 0.
Proof.
  intros Hcmd Hsw Hfile. rewrite (main_decode _ _ _ _ _ _ Hcmd). unfold call.
  rewrite (wav_to_text_run wav_file output_text_file c w Hfile).
  destruct (unpack_frames_total (getsampwidth c)
              (readframes c (getnframes c)) Hsw) as [d E].
  unfold decoded_stream. rewrite E. unfold after_header.
  destruct (bytes_contains d MAGIC); [|reflexivity].
  destruct (b64decode _); reflexivity.
Qed.

Lemma cli_decode_status_0_witness :
  exit_status
    (fst (main ("script.py" :: "decode" :: "in.wav" :: "out.txt" :: [])%string
            (disk_with_wav "in.wav" (Pcm 1 1 44100 20 (bs "ENCODED_TEXT:SGVsbG8")))))
  = 0.
Proof.
  apply (cli_decode_status_0 (Pcm 1 1 44100 20 (bs "ENCODED_TEXT:SGVsbG8"))
           "script.py" "decode" "in.wav" "out.txt" []
           (disk_with_wav "in.wav" (Pcm 1 1 44100 20 (bs "ENCODED_TEXT:SGVsbG8")))).
  - reflexivity.
  - left. reflexivity.
  - vm_compute. reflexivity.
Defined.

(** X22. [encode] on an input path that does not exist ends with an
    uncaught [FileNotFoundError], status 1, and creates no output file. *)
Theorem cli_encode_missing_input (prog command text_file wav_file : string)
    (more : list string) (w : world) :
  str_lower command = "encode"%string ->
  fs w !! text_file = None ->
  main (prog :: command :: text_file :: wav_file :: more) w
  = (Uncaught (FileNotFoundError text_file), w) /\
  exit_status (fst (main (prog :: command :: text_file :: wav_file :: more) w))
  = 1.
Proof.
  intros Hcmd Hfile. rewrite (main_encode _ _ _ _ _ _ Hcmd). unfold call.
  unfold text_to_wav.
  erewrite bind_raise
    by (unfold open_rb_read; rewrite Hfile; reflexivity).
  split; reflexivity.
Qed.

Lemma cli_encode_missing_input_witness :
  main ("script.py" :: "encode" :: "gone.txt" :: "out.wav" :: [])%string
    (disk_with "in.txt" (bs "Hello"))
  = (Uncaught (FileNotFoundError "gone.txt"), disk_with "in.txt" (bs "Hello")) /\
  exit_status
    (fst (main ("script.py" :: "encode" :: "gone.txt" :: "out.wav" :: [])%string
            (disk_with "in.txt" (bs "Hello")))) = 1.
Proof.
  apply (cli_encode_missing_input "script.py" "encode" "gone.txt" "out.wav" []
           (disk_with "in.txt" (bs "Hello"))).
  - reflexivity.
  - vm_compute. reflexivity.
Defined.

(** ** An unsupported depth, end to end *)

(** X23. A payload encoded at an unsupported depth is lost without an
    error: when [depth // 8] is 1, 2 or 4 the encoder reports success, and
    decoding the container it wrote reports that the file holds no encoded
    data and writes nothing. *)
Theorem unsupported_depth_loses_payload (x : list byte) (bits_per_sample : Z)
    (text_file wav_file output_text_file : string) (w : world) :
  ~ supported bits_per_sample ->
  bits_per_sample / 8 = 1 \/ bits_per_sample / 8 = 2
  \/ bits_per_sample / 8 = 4 ->
  fs w !! text_file = Some (Plain x) ->
  exists w1,
    text_to_wav text_file wav_file bits_per_sample w = (Ok tt, w1) /\
    wav_to_text wav_file output_text_file w1
    = (Ok tt, World (fs w1) (stdout w1 ++ [msg_not_encoded])).
Proof.
  intros Hs Hsw Hfile. eexists. split.
  - apply text_to_wav_run_narrow; [exact Hs | lia | exact Hfile].
  - rewrite (wav_to_text_run wav_file output_text_file
               (Pcm 1 (bits_per_sample / 8) 44100 0 []))
      by (cbn [fs]; apply lookup_insert_eq).
    destruct Hsw as [E|[E|E]]; rewrite E; reflexivity.
Qed.

Lemma unsupported_depth_loses_payload_witness :
  exists w1,
    text_to_wav "in.txt" "out.wav" 12 (disk_with "in.txt" (bs "Hello"))
    = (Ok tt, w1) /\
    wav_to_text "out.wav" "back.txt" w1
    = (Ok tt, World (fs w1) (stdout w1 ++ [msg_not_encoded])).
Proof.
  apply (unsupported_depth_loses_payload (bs "Hello") 12 "in.txt" "out.wav"
           "back.txt" (disk_with "in.txt" (bs "Hello"))).
  - intros [H|[H|H]]; discriminate H.
  - left. reflexivity.
  - vm_compute. reflexivity.
Defined.
